(** * KAppMan: a shallow embedding of [kappman.core] and [kappman.watcher]

    Paths are modelled the way [pathlib] sees an absolute, normalised path:
    as the list of its components ([["home"; "u"; "App.AppImage"]] is
    [/home/u/App.AppImage]).  The filesystem is a record of finite maps and
    sets (stdpp's [gmap] and [gset]) and the I/O of the code runs in a small
    state-and-exception monad: an exception leaves the effects performed
    before it in place, as in Python. *)

From Stdlib Require Import String Ascii ZArith Sorted.
From stdpp Require Import base gmap strings list.



(* ------------------------------------------------------------------ *)
(** ** String helpers (Python [str] methods on ASCII text) *)

(** [s.endswith(suf)] *)
Definition endswith (s suf : string) : bool :=
  let n := String.length s in
  let m := String.length suf in
  (m <=? n)%nat && String.eqb (String.substring (n - m) m s) suf.

(** [s[: -len(suf)]] for a non-empty [suf] no longer than [s] *)
Definition drop_suffix (s suf : string) : string :=
  String.substring 0 (String.length s - String.length suf) s.

(** [str.lower] on ASCII letters *)
Definition lower_char (c : ascii) : ascii :=
  let n := nat_of_ascii c in
  if (65 <=? n)%nat && (n <=? 90)%nat then ascii_of_nat (n + 32) else c.

Fixpoint lower (s : string) : string :=
  match s with
  | EmptyString => EmptyString
  | String c t => String (lower_char c) (lower t)
  end.

(** [s.startswith(pre)] *)
Definition startswith (s pre : string) : bool := String.prefix pre s.

(** [needle in hay] *)
Fixpoint contains (needle hay : string) : bool :=
  String.prefix needle hay ||
  match hay with
  | EmptyString => false
  | String _ t => contains needle t
  end.

(** [s.split("/")] *)
Fixpoint split_at_slash (s : string) (cur : string) : list string :=
  match s with
  | EmptyString => [cur]
  | String c t =>
      if Ascii.eqb c "/"%char then cur :: split_at_slash t ""
      else split_at_slash t (cur +:+ String c EmptyString)
  end.

Definition split_slash (s : string) : list string := split_at_slash s "".

(* ------------------------------------------------------------------ *)
(** ** Paths *)

Abbreviation path := (list string).

(** [str(path)] of an absolute normalised path *)
Definition pstr (p : path) : string :=
  match p with
  | [] => "/"
  | _ => String.concat "" (map (fun c => "/" +:+ c) p)
  end.

(** [Path.name] *)
Definition path_name (p : path) : string := List.last p "".

(** [posixpath.normpath] on the components of an absolute path: empty
    components and [.] vanish, [..] removes the previous component and is
    dropped at the root.  (The POSIX special case of a path that starts
    with exactly two slashes is not modelled: it is read as one slash.) *)
Fixpoint normalize_acc (acc : list string) (cs : list string) : list string :=
  match cs with
  | [] => rev acc
  | c :: cs' =>
      if String.eqb c "" || String.eqb c "." then normalize_acc acc cs'
      else if String.eqb c ".." then normalize_acc (tail acc) cs'
      else normalize_acc (c :: acc) cs'
  end.

Definition normpath (cs : list string) : path := normalize_acc [] cs.

(** [os.path.abspath(os.path.expanduser(file_path))], given the home
    directory and the working directory of the process.  [~] and [~/...]
    expand to the home directory; [~user] forms are left as they are
    (the password database is not modelled). *)
Definition resolve (home cwd : path) (file_path : string) : path :=
  match split_slash file_path with
  | "~" :: rest => normpath (home ++ rest)
  | "" :: rest => normpath rest
  | cs => normpath (cwd ++ cs)
  end.

(* ------------------------------------------------------------------ *)
(** ** [kappman.core._sanitize_name] *)

Fixpoint strip_first_suffix (suffixes : list string) (name : string) : string :=
  match suffixes with
  | [] => name
  | suffix :: rest =>
      if endswith name suffix then drop_suffix name suffix
      else strip_first_suffix rest name
  end.

(** [for suffix in (".AppImage", ".appimage"): if name.endswith(suffix):
    return name[: -len(suffix)]]; [return name] *)
Definition _sanitize_name (file_path : path) : string :=
  let name := path_name file_path in
  strip_first_suffix [".AppImage"; ".appimage"] name.

(* ------------------------------------------------------------------ *)
(** ** [kappman.watcher.AppImageEventHandler] *)

(** [path.lower().endswith(".appimage")] *)
Definition _is_appimage (p : string) : bool := endswith (lower p) ".appimage".

Inductive event_kind := Created | Deleted | Moved.

(** A watchdog event: [event.is_directory], [event.src_path] and, for a
    move, [event.dest_path]. *)
Record fs_event := {
  ev_kind : event_kind;
  is_directory : bool;
  src_path : string;
  dest_path : string
}.

Definition FileCreatedEvent (src : string) : fs_event :=
  {| ev_kind := Created; is_directory := false; src_path := src; dest_path := "" |}.
Definition FileDeletedEvent (src : string) : fs_event :=
  {| ev_kind := Deleted; is_directory := false; src_path := src; dest_path := "" |}.

(** The core call a handler makes. *)
Inductive action := Integrate (p : string) | Remove (p : string).

Definition on_created (event : fs_event) : list action :=
  if is_directory event || negb (_is_appimage (src_path event)) then []
  else [Integrate (src_path event)].

Definition on_deleted (event : fs_event) : list action :=
  if is_directory event || negb (_is_appimage (src_path event)) then []
  else [Remove (src_path event)].

Definition on_moved (event : fs_event) : list action :=
  if is_directory event then []
  else (if _is_appimage (src_path event)
        then on_deleted (FileDeletedEvent (src_path event)) else [])
       ++ (if _is_appimage (dest_path event)
           then on_created (FileCreatedEvent (dest_path event)) else []).

(** watchdog's [FileSystemEventHandler.dispatch] *)
Definition dispatch (event : fs_event) : list action :=
  match ev_kind event with
  | Created => on_created event
  | Deleted => on_deleted event
  | Moved => on_moved event
  end.


(* ------------------------------------------------------------------ *)
(** ** The filesystem and the process environment *)

(** A regular file: its bytes and its permission bits. *)
Record file := { f_content : string; f_mode : Z }.

(** The state the code observes and changes.  [fs_ro] lists the directories
    the user may not create or unlink entries in; [fs_foreign] the entries
    owned by another user (their mode cannot be changed and, for files,
    they cannot be written).  [env_which_unsquashfs] is [shutil.which] on
    [unsquashfs]; [env_unsquash] is what running [unsquashfs] on a bundle
    produces: [None] when [subprocess.run] raises (timeout, missing
    executable, ...), or the regular files it unpacked, as paths relative
    to the scratch root with their contents. *)
Record FS := {
  env_home : path;
  env_cwd : path;
  fs_dirs : gset path;
  fs_files : gmap path file;
  fs_ro : gset path;
  fs_foreign : gset path;
  env_which_unsquashfs : bool;
  env_unsquash : path -> option (list (path * string))
}.

Definition set_dirs (d : gset path) (fs : FS) : FS :=
  {| env_home := env_home fs; env_cwd := env_cwd fs; fs_dirs := d;
     fs_files := fs_files fs; fs_ro := fs_ro fs; fs_foreign := fs_foreign fs;
     env_which_unsquashfs := env_which_unsquashfs fs;
     env_unsquash := env_unsquash fs |}.

Definition set_files (m : gmap path file) (fs : FS) : FS :=
  {| env_home := env_home fs; env_cwd := env_cwd fs; fs_dirs := fs_dirs fs;
     fs_files := m; fs_ro := fs_ro fs; fs_foreign := fs_foreign fs;
     env_which_unsquashfs := env_which_unsquashfs fs;
     env_unsquash := env_unsquash fs |}.

(** [APPLICATIONS_DIR = Path.home() / ".local" / "share" / "applications"] *)
Definition APPLICATIONS_DIR (home : path) : path :=
  home ++ [".local"; "share"; "applications"].

(** [ICONS_DIR = Path.home() / ".local" / "share" / "icons" / "kappman"] *)
Definition ICONS_DIR (home : path) : path :=
  home ++ [".local"; "share"; "icons"; "kappman"].

(** [d / s]: joining the empty string leaves the path as it is. *)
Definition path_join (d : path) (s : string) : path :=
  if String.eqb s "" then d else d ++ [s].

(** [_desktop_path(app_name)] *)
Definition _desktop_path (home : path) (app_name : string) : path :=
  APPLICATIONS_DIR home ++ [app_name +:+ ".desktop"].

Definition is_dir (fs : FS) (p : path) : bool :=
  match p with [] => true | _ => bool_decide (p ∈ fs_dirs fs) end.

Definition is_file (fs : FS) (p : path) : bool :=
  match fs_files fs !! p with Some _ => true | None => false end.

(** [Path.exists()] *)
Definition exists_b (fs : FS) (p : path) : bool := is_dir fs p || is_file fs p.

(* ------------------------------------------------------------------ *)
(** ** A state-and-exception monad *)

Inductive exn :=
  | FileNotFoundError | FileExistsError | NotADirectoryError
  | IsADirectoryError | PermissionError.

Inductive res (A : Type) := Ok (a : A) | Raise (e : exn).
Arguments Ok {A} a.
Arguments Raise {A} e.

Definition M (A : Type) : Type := FS -> res A * FS.

Definition ret {A} (a : A) : M A := fun fs => (Ok a, fs).
Definition raise {A} (e : exn) : M A := fun fs => (Raise e, fs).
Definition bind {A B} (m : M A) (k : A -> M B) : M B := fun fs =>
  match m fs with
  | (Ok a, fs') => k a fs'
  | (Raise e, fs') => (Raise e, fs')
  end.
Definition get : M FS := fun fs => (Ok fs, fs).

Notation "'let!' x := m 'in' k" := (bind m (fun x => k))
  (at level 200, x name, m at level 100, k at level 200).
Notation "m ;;; k" := (bind m (fun _ => k)) (at level 100, right associativity).

(* ------------------------------------------------------------------ *)
(** ** System calls *)

(** [os.mkdir(p)]: the path walk to the parent fails first, then an
    existing entry, then a parent without write permission. *)
Definition os_mkdir (p : path) : M unit := fun fs =>
  let parent := removelast p in
  if is_dir fs parent then
    if exists_b fs p then (Raise FileExistsError, fs)
    else if bool_decide (parent ∈ fs_ro fs) then (Raise PermissionError, fs)
    else (Ok tt, set_dirs ({[p]} ∪ fs_dirs fs) fs)
  else if is_file fs parent then (Raise NotADirectoryError, fs)
  else (Raise FileNotFoundError, fs).

(** [Path.mkdir(parents=False, exist_ok=True)]: [FileNotFoundError] is
    re-raised, any other [OSError] is ignored when [p] is a directory. *)
Definition mkdir_once (p : path) : M unit := fun fs =>
  match os_mkdir p fs with
  | (Raise FileNotFoundError, fs1) => (Raise FileNotFoundError, fs1)
  | (Raise e, fs1) => if is_dir fs1 p then (Ok tt, fs1) else (Raise e, fs1)
  | r => r
  end.

(** [Path.mkdir(parents=True, exist_ok=True)] on the reversed components:
    on [FileNotFoundError] make the parent, then retry without [parents]. *)
Fixpoint mkdir_rev (rp : list string) : M unit :=
  match rp with
  | [] => mkdir_once []
  | _ :: rparent => fun fs =>
      match os_mkdir (rev rp) fs with
      | (Raise FileNotFoundError, fs1) =>
          (mkdir_rev rparent ;;; mkdir_once (rev rp)) fs1
      | (Raise e, fs1) =>
          if is_dir fs1 (rev rp) then (Ok tt, fs1) else (Raise e, fs1)
      | r => r
      end
  end.

Definition mkdir_p (p : path) : M unit := mkdir_rev (rev p).

(** Why opening [d / b] for writing fails, if it does. *)
Definition write_check (fs : FS) (d : path) (b : string) : option exn :=
  let full := d ++ [b] in
  if negb (is_dir fs d) then
    Some (if is_file fs d then NotADirectoryError else FileNotFoundError)
  else if is_dir fs full then Some IsADirectoryError
  else if is_file fs full then
    (if bool_decide (full ∈ fs_foreign fs) then Some PermissionError else None)
  else if bool_decide (d ∈ fs_ro fs) then Some PermissionError
  else None.

(** [(d / b).write_text(content)]: truncates an existing file (keeping its
    mode) or creates one with mode 0o644. *)
Definition write_text (d : path) (b : string) (content : string) : M unit :=
  fun fs =>
  match write_check fs d b with
  | Some e => (Raise e, fs)
  | None =>
      let full := d ++ [b] in
      let mode := match fs_files fs !! full with
                  | Some f => f_mode f | None => 420%Z end in
      (Ok tt, set_files (<[full := {| f_content := content; f_mode := mode |}]>
                           (fs_files fs)) fs)
  end.

(** [Path.unlink()] *)
Definition unlink (p : path) : M unit := fun fs =>
  if is_dir fs p then (Raise IsADirectoryError, fs)
  else if negb (is_file fs p) then (Raise FileNotFoundError, fs)
  else if bool_decide (removelast p ∈ fs_ro fs) then (Raise PermissionError, fs)
  else (Ok tt, set_files (delete p (fs_files fs)) fs).

(** [path.stat().st_mode] (the mode of a directory is not modelled) *)
Definition stat_mode (p : path) : M Z := fun fs =>
  match fs_files fs !! p with
  | Some f => (Ok (f_mode f), fs)
  | None => if is_dir fs p then (Ok 0%Z, fs) else (Raise FileNotFoundError, fs)
  end.

(** [path.chmod(mode)] *)
Definition chmod (p : path) (mode : Z) : M unit := fun fs =>
  if negb (exists_b fs p) then (Raise FileNotFoundError, fs)
  else if bool_decide (p ∈ fs_foreign fs) then (Raise PermissionError, fs)
  else match fs_files fs !! p with
       | Some f => (Ok tt, set_files (<[p := {| f_content := f_content f;
                                                f_mode := mode |}]> (fs_files fs)) fs)
       | None => (Ok tt, fs)
       end.

(** Catch every exception of [m] and return [d] instead
    ([try: ... except Exception: ...]). *)
Definition catch_all {A} (m : M A) (d : A) : M A := fun fs =>
  match m fs with
  | (Raise _, fs') => (Ok d, fs')
  | r => r
  end.

(* ------------------------------------------------------------------ *)
(** ** [kappman.core._extract_icon] *)

(** Index of the last [.] in [s] ([str.rfind(".")], [None] for -1). *)
Fixpoint rfind_dot_from (s : string) (i : nat) (best : option nat) : option nat :=
  match s with
  | EmptyString => best
  | String c t =>
      rfind_dot_from t (S i) (if Ascii.eqb c "."%char then Some i else best)
  end.

(** [PurePath.suffix] of a file name *)
Definition suffix (name : string) : string :=
  match rfind_dot_from name 0 None with
  | Some i =>
      if (0 <? i)%nat && (i <? String.length name - 1)%nat
      then String.substring i (String.length name - i) name else ""
  | None => ""
  end.

(** The [rglob] patterns of [_extract_icon], in priority order. *)
Inductive pattern := Star (suf : string) | Exact (s : string).

Definition icon_patterns : list pattern := [Star ".png"; Star ".svg"; Exact ".DirIcon"].

Definition matches (pat : pattern) (name : string) : bool :=
  match pat with
  | Star suf => endswith name suf
  | Exact s => String.eqb name s
  end.

(** [sorted(candidates)[0]]: the least candidate in the order of their
    path strings (candidates share the scratch root as prefix). *)
Definition least (l : list (path * string)) : option (path * string) :=
  fold_left (fun acc x =>
               match acc with
               | None => Some x
               | Some y => if String.ltb (pstr x.1) (pstr y.1) then Some x else Some y
               end) l None.

(** [for pattern in (...): candidates = sorted(squash_root.rglob(pattern));
    if candidates: ...] *)
Fixpoint first_candidate (pats : list pattern) (tree : list (path * string))
  : option (path * string) :=
  match pats with
  | [] => None
  | pat :: rest =>
      match least (filter (fun x => matches pat (path_name x.1)) tree) with
      | Some c => Some c
      | None => first_candidate rest tree
      end
  end.

(** [shutil.copy2(src, dest)]: into [dest / src.name] when [dest] is a
    directory (copied metadata is not modelled). *)
Definition copy2 (src_name : string) (data : string) (dest : path) : M unit :=
  fun fs =>
  if is_dir fs dest then write_text dest src_name data fs
  else write_text (removelast dest) (List.last dest "") data fs.

Definition _extract_icon (appimage_path : path) (app_name : string) : M (option path) :=
  let! fs := get in
  if negb (env_which_unsquashfs fs) then ret None else
  match env_unsquash fs appimage_path with
  | None => ret None
  | Some tree =>
      match first_candidate icon_patterns tree with
      | None => ret None
      | Some (src, data) =>
          let dest := path_join (ICONS_DIR (env_home fs))
                                (app_name +:+ suffix (path_name src)) in
          catch_all (copy2 (path_name src) data dest ;;; ret (Some dest)) None
      end
  end.

(* ------------------------------------------------------------------ *)
(** ** [kappman.core.integrate_appimage] *)

Definition NL : string := String (ascii_of_nat 10) EmptyString.

Definition GENERIC_ICON : string := "application-x-executable".

Definition MARKER : string := "X-KAppMan-Source=".

(** The [desktop_content] f-string. *)
Definition desktop_content (app_name exec icon_value : string) : string :=
  "[Desktop Entry]" +:+ NL +:+
  "Name=" +:+ app_name +:+ NL +:+
  "Exec=" +:+ exec +:+ NL +:+
  "Icon=" +:+ icon_value +:+ NL +:+
  "Type=Application" +:+ NL +:+
  "Categories=Utility;" +:+ NL +:+
  "Terminal=false" +:+ NL +:+
  "StartupNotify=true" +:+ NL +:+
  "Comment=AppImage managed by KAppMan" +:+ NL +:+
  MARKER +:+ exec +:+ NL.

(** The dict returned by [integrate_appimage]. *)
Record integrated := {
  app_name : string;
  exec_path : string;
  desktop_path : string;
  icon_path : option string
}.

Definition _ensure_dirs : M unit :=
  let! fs := get in
  mkdir_p (APPLICATIONS_DIR (env_home fs)) ;;;
  mkdir_p (ICONS_DIR (env_home fs)).

(** [stat.S_IXUSR | stat.S_IXGRP | stat.S_IXOTH] *)
Definition S_IXALL : Z := 73%Z.

Definition integrate_appimage (file_path : string) : M integrated :=
  _ensure_dirs ;;;
  let! fs := get in
  let path := resolve (env_home fs) (env_cwd fs) file_path in
  if negb (exists_b fs path) then raise FileNotFoundError else
  let! current_mode := stat_mode path in
  chmod path (Z.lor current_mode S_IXALL) ;;;
  let app_name := _sanitize_name path in
  let! icon_path := _extract_icon path app_name in
  let icon_value := match icon_path with
                    | Some i => pstr i
                    | None => GENERIC_ICON
                    end in
  let content := desktop_content app_name (pstr path) icon_value in
  write_text (APPLICATIONS_DIR (env_home fs)) (app_name +:+ ".desktop") content ;;;
  ret {| app_name := app_name;
         exec_path := pstr path;
         desktop_path := pstr (_desktop_path (env_home fs) app_name);
         icon_path := match icon_path with Some i => Some (pstr i) | None => None end |}.

(* ------------------------------------------------------------------ *)
(** ** [kappman.core.remove_appimage] *)

(** [for suffix in (".png", ".svg", ""): if icon.exists(): icon.unlink();
    break] *)
Fixpoint remove_first_icon (icons_dir : path) (app_name : string)
         (suffixes : list string) : M unit :=
  match suffixes with
  | [] => ret tt
  | suf :: rest =>
      let! fs := get in
      let icon := path_join icons_dir (app_name +:+ suf) in
      if exists_b fs icon then unlink icon
      else remove_first_icon icons_dir app_name rest
  end.

Definition remove_appimage (file_path : string) : M bool :=
  let! fs := get in
  let path := resolve (env_home fs) (env_cwd fs) file_path in
  let app_name := _sanitize_name path in
  let dp := _desktop_path (env_home fs) app_name in
  if negb (exists_b fs dp) then ret false else
  unlink dp ;;;
  remove_first_icon (ICONS_DIR (env_home fs)) app_name [".png"; ".svg"; ""] ;;;
  ret true.

(* ------------------------------------------------------------------ *)
(** ** [kappman.core.list_integrated] *)

(** The separators of [str.splitlines] in ASCII ([\n], [\r], [\v], [\f],
    [\x1c], [\x1d], [\x1e]); [\r\n] counts as one. *)
Definition is_line_break (c : ascii) : bool :=
  let n := nat_of_ascii c in
  (n =? 10)%nat || (n =? 13)%nat || (n =? 11)%nat || (n =? 12)%nat
  || (n =? 28)%nat || (n =? 29)%nat || (n =? 30)%nat.

Fixpoint splitlines_acc (s cur : string) : list string :=
  match s with
  | EmptyString => if String.eqb cur "" then [] else [cur]
  | String c t =>
      if is_line_break c then
        let t' := match t with
                  | String d t2 =>
                      if (nat_of_ascii c =? 13)%nat && (nat_of_ascii d =? 10)%nat
                      then t2 else t
                  | EmptyString => t
                  end in
        cur :: splitlines_acc t' ""
      else splitlines_acc t (cur +:+ String c EmptyString)
  end.

Definition splitlines (s : string) : list string := splitlines_acc s "".

(** Whether [s] contains a character [str.splitlines] breaks at. *)
Fixpoint has_line_break (s : string) : bool :=
  match s with
  | EmptyString => false
  | String c t => is_line_break c || has_line_break t
  end.

(** Whether every character of [s] is ASCII.  On such text
    [read_text(encoding="utf-8", errors="ignore")] returns the bytes
    unchanged and [str.splitlines] breaks only at the separators of
    [is_line_break]; the model of [list_integrated] reads content as raw
    bytes and is only faithful there. *)
Fixpoint is_ascii (s : string) : bool :=
  match s with
  | EmptyString => true
  | String c t => (nat_of_ascii c <? 128)%nat && is_ascii t
  end.

(** [line.split("=", 1)[1]] for a line that starts with the marker *)
Definition after_marker (line : string) : string :=
  String.substring (String.length MARKER)
                   (String.length line - String.length MARKER) line.

(** [for line in content.splitlines(): if line.startswith(MARKER): ...; break] *)
Fixpoint find_source (lines : list string) : string :=
  match lines with
  | [] => ""
  | line :: rest =>
      if startswith line MARKER then after_marker line else find_source rest
  end.

(** [PurePath.stem] of a file name *)
Definition stem (name : string) : string :=
  let suf := suffix name in
  String.substring 0 (String.length name - String.length suf) name.

(** The dict of one listed entry. *)
Record listed := {
  entry_app_name : string;
  entry_exec_path : string;
  entry_desktop_path : string
}.

(** The last component of [k] when [k] is a direct child of [d]. *)
Definition child_name (d k : path) : option string :=
  if bool_decide (take (length d) k = d) then
    match drop (length d) k with [b] => Some b | _ => None end
  else None.

Definition is_desktop_child (d k : path) : bool :=
  match child_name d k with
  | Some b => endswith b ".desktop"
  | None => false
  end.

Fixpoint insert_sorted (x : path * file) (l : list (path * file)) : list (path * file) :=
  match l with
  | [] => [x]
  | y :: l' => if String.leb (pstr x.1) (pstr y.1) then x :: l else y :: insert_sorted x l'
  end.

(** [sorted(APPLICATIONS_DIR.glob("*.desktop"))], regular files only *)
Definition desktop_files (fs : FS) : list (path * file) :=
  let apps := APPLICATIONS_DIR (env_home fs) in
  fold_right insert_sorted []
    (filter (fun kf => is_desktop_child apps kf.1) (map_to_list (fs_files fs))).

(** One listed entry, or none when the content lacks the marker. *)
Definition read_entry (kf : path * file) : option listed :=
  let content := f_content kf.2 in
  if negb (contains MARKER content) then None
  else Some {| entry_app_name := stem (path_name kf.1);
               entry_exec_path := find_source (splitlines content);
               entry_desktop_path := pstr kf.1 |}.

(** A directory matched by the glob makes [read_text] raise.  Files are
    assumed readable and symbolic links are not modelled: in Python an
    unreadable descriptor or a dangling link makes [read_text] raise. *)
Definition list_integrated : M (list listed) := fun fs =>
  let apps := APPLICATIONS_DIR (env_home fs) in
  if negb (exists_b fs apps) then (Ok [], fs)
  else if negb (is_dir fs apps) then (Ok [], fs)
  else if existsb (is_desktop_child apps) (elements (fs_dirs fs))
  then (Raise IsADirectoryError, fs)
  else (Ok (omap read_entry (desktop_files fs)), fs).



(* ------------------------------------------------------------------ *)
(** ** Running the watcher's handlers *)

(** What the handler's calls do: [on_created] wraps [integrate_appimage]
    in [try: ... except Exception: logger.exception(...)]; [on_deleted]
    calls [remove_appimage] without a [try]; [on_moved] runs the two in
    order, so an exception of the first skips the second. *)
Definition run_action (a : action) : M unit :=
  match a with
  | Integrate p => catch_all (integrate_appimage p ;;; ret tt) tt
  | Remove p => remove_appimage p ;;; ret tt
  end.

Fixpoint run_actions (l : list action) : M unit :=
  match l with
  | [] => ret tt
  | a :: rest => run_action a ;;; run_actions rest
  end.

(** One event delivered to the handler by watchdog's [dispatch]. *)
Definition handle (event : fs_event) : M unit := run_actions (dispatch event).

(* ------------------------------------------------------------------ *)
(** ** [AppImageWatcher]: [start], [stop] and [run_forever] as threads

    The shared fields of the object: the [threading.Event] [_stop_event]
    and [_observer], which is [None] or an observer that is alive or not.
    [run_forever] (run by the GUI's [WatcherThread]) and [stop] (called by
    the GUI thread) are sequences of atomic steps; the observer's thread
    dispatches events to the handler while it is alive.  [observer.stop();
    observer.join()] is one step after which the observer is dead: the
    join waits for an event in flight. *)
Record watcher_obj := {
  stop_event : bool;
  observer : option bool   (* [None], or [Some alive] *)
}.

(** Where the thread running [run_forever] is: the lines of [start]
    ([mkdir], [clear], [Observer()], [schedule], [observer.start()]), the
    [wait] and the [finally] block. *)
Inductive run_pc := R_mkdir | R_clear | R_create | R_schedule | R_start
                  | R_wait | R_finally | R_done.

(** Where the thread running [stop] is: [set], the [if], the teardown. *)
Inductive stop_pc := S_set | S_check | S_teardown | S_returned.

Record sys := {
  obj : watcher_obj;
  run_at : run_pc;
  stop_at : stop_pc
}.

Inductive thread := RunThread | StopThread | ObserverThread.

(** What the other threads see: [stop] returning, and an event handed to
    [AppImageEventHandler] (which calls [integrate_appimage] or
    [remove_appimage]). *)
Inductive label := StopReturned | Dispatched.

Definition set_obj (o : watcher_obj) (s : sys) : sys :=
  {| obj := o; run_at := run_at s; stop_at := stop_at s |}.
Definition set_run (pc : run_pc) (s : sys) : sys :=
  {| obj := obj s; run_at := pc; stop_at := stop_at s |}.
Definition set_stop (pc : stop_pc) (s : sys) : sys :=
  {| obj := obj s; run_at := run_at s; stop_at := pc |}.

Definition alive (o : watcher_obj) : bool :=
  match observer o with Some true => true | _ => false end.

(** [if self._observer and self._observer.is_alive(): stop(); join()] *)
Definition teardown (o : watcher_obj) : watcher_obj :=
  if alive o then {| stop_event := stop_event o; observer := Some false |} else o.

(** One atomic step of a thread; [None] when it cannot move (finished, or
    blocked in [_stop_event.wait()], or the observer is not running). *)
Definition step (t : thread) (s : sys) : option (sys * list label) :=
  let o := obj s in
  match t with
  | RunThread =>
      match run_at s with
      | R_mkdir => Some (set_run R_clear s, [])
      | R_clear =>
          Some (set_run R_create
                  (set_obj {| stop_event := false; observer := observer o |} s), [])
      | R_create =>
          Some (set_run R_schedule
                  (set_obj {| stop_event := stop_event o; observer := Some false |} s), [])
      | R_schedule => Some (set_run R_start s, [])
      | R_start =>
          Some (set_run R_wait
                  (set_obj {| stop_event := stop_event o; observer := Some true |} s), [])
      | R_wait => if stop_event o then Some (set_run R_finally s, []) else None
      | R_finally => Some (set_run R_done (set_obj (teardown o) s), [])
      | R_done => None
      end
  | StopThread =>
      match stop_at s with
      | S_set =>
          Some (set_stop S_check
                  (set_obj {| stop_event := true; observer := observer o |} s), [])
      | S_check =>
          if alive o then Some (set_stop S_teardown s, [])
          else Some (set_stop S_returned s, [StopReturned])
      | S_teardown => Some (set_stop S_returned (set_obj (teardown o) s), [StopReturned])
      | S_returned => None
      end
  | ObserverThread => if alive o then Some (s, [Dispatched]) else None
  end.

(** A schedule run step by step, with what the steps show. *)
Fixpoint run (sched : list thread) (s : sys) : option (sys * list label) :=
  match sched with
  | [] => Some (s, [])
  | t :: rest =>
      match step t s with
      | None => None
      | Some (s1, l1) =>
          match run rest s1 with
          | None => None
          | Some (s2, l2) => Some (s2, l1 ++ l2)
          end
      end
  end.

(** Right after [AppImageWatcher.__init__]: the event is clear and
    [_observer] is [None]; neither thread has started. *)
Definition sys_init : sys :=
  {| obj := {| stop_event := false; observer := None |};
     run_at := R_mkdir; stop_at := S_set |}.

(* ------------------------------------------------------------------ *)
(** ** Concrete states *)

Definition home0 : path := ["home"; "u"].

(** A home directory with nothing under it, no [unsquashfs]. *)
Definition fs0 : FS := {|
  env_home := home0;
  env_cwd := home0;
  fs_dirs := {[ ["home"]; home0; ["tmp"] ]};
  fs_files := ∅;
  fs_ro := ∅;
  fs_foreign := ∅;
  env_which_unsquashfs := false;
  env_unsquash := fun _ => None
|}.

(** [fs0] with the bundle [/tmp/MyTestApp.AppImage] *)
Definition fs_app : FS :=
  set_files {[ ["tmp"; "MyTestApp.AppImage"] :=
                 {| f_content := "#!/bin/sh"; f_mode := 420%Z |} ]} fs0.

(** [fs0] where another tool owns [Foo.desktop]: a descriptor without the
    marker key. *)
Definition fs_other_tool : FS :=
  set_files {[ APPLICATIONS_DIR home0 ++ ["Foo.desktop"] :=
                 {| f_content := "[Desktop Entry]" +:+ NL +:+ "Name=Foo" +:+ NL
                                 +:+ "Exec=/opt/foo/foo" +:+ NL;
                    f_mode := 420%Z |} ]}
    (set_dirs ({[ home0 ++ [".local"]; home0 ++ [".local"; "share"];
                  APPLICATIONS_DIR home0 ]} ∪ fs_dirs fs0) fs0).

(** [fs_other_tool] where [Foo.desktop] is a directory. *)
Definition fs_desktop_dir : FS :=
  set_dirs ({[ APPLICATIONS_DIR home0 ++ ["Foo.desktop"] ]} ∪ fs_dirs fs_other_tool)
    (set_files ∅ fs_other_tool).


(** [fs_app] with [unsquashfs] installed; the bundle unpacks to a tree
    holding one PNG icon. *)
Definition fs_app_icon : FS :=
  {| env_home := home0; env_cwd := home0;
     fs_dirs := fs_dirs fs_app; fs_files := fs_files fs_app;
     fs_ro := ∅; fs_foreign := ∅;
     env_which_unsquashfs := true;
     env_unsquash := fun _ =>
       Some [(["squashfs-root"; "usr"; "share"; "icons"; "app.png"], "PNG")] |}.


(* ------------------------------------------------------------------ *)
(** ** Frame relations used in the proofs *)

(** Everything but the directories and the files is unchanged. *)
Definition same_env (fs fs' : FS) : Prop :=
  env_home fs' = env_home fs ∧ env_cwd fs' = env_cwd fs ∧
  fs_ro fs' = fs_ro fs ∧ fs_foreign fs' = fs_foreign fs ∧
  env_which_unsquashfs fs' = env_which_unsquashfs fs ∧
  env_unsquash fs' = env_unsquash fs.

(** Only directories satisfying [P] were added. *)
Definition dirs_grow (P : path -> Prop) (fs fs' : FS) : Prop :=
  fs_files fs' = fs_files fs ∧ same_env fs fs' ∧
  fs_dirs fs ⊆ fs_dirs fs' ∧
  ∀ d, d ∈ fs_dirs fs' -> d ∈ fs_dirs fs ∨ P d.

(** [k] lies in the icons directory (or is it). *)
Definition under (d k : path) : Prop := ∃ rest, k = d ++ rest.

(** The environment and the directories are unchanged, and so is every
    file outside [P]. *)
Definition files_frame (P : path -> Prop) (fs fs' : FS) : Prop :=
  same_env fs fs' ∧ fs_dirs fs' = fs_dirs fs ∧
  ∀ k, ¬ P k -> fs_files fs' !! k = fs_files fs !! k.

(* ================================================================== *)
(** * Lemmas about the system calls *)

Lemma same_env_refl fs : same_env fs fs.
Proof. repeat split. Qed.

Lemma same_env_trans a b c : same_env a b -> same_env b c -> same_env a c.
Proof. unfold same_env. intuition congruence. Qed.

Lemma same_env_set_dirs d fs : same_env fs (set_dirs d fs).
Proof. repeat split. Qed.

Lemma same_env_set_files m fs : same_env fs (set_files m fs).
Proof. repeat split. Qed.

Create HintDb kfs.
#[local] Hint Resolve same_env_refl same_env_set_dirs same_env_set_files : kfs.

Lemma dirs_grow_refl P fs : dirs_grow P fs fs.
Proof. split; [done|]. split; [auto with kfs|]. split; [set_solver|]. auto. Qed.

Lemma dirs_grow_trans (P Q : path -> Prop) a b c :
  dirs_grow P a b -> dirs_grow Q b c -> dirs_grow (fun d => P d ∨ Q d) a c.
Proof.
  intros (Hf1 & He1 & Hs1 & Hn1) (Hf2 & He2 & Hs2 & Hn2).
  split; [congruence|]. split; [eauto using same_env_trans|].
  split; [set_solver|].
  intros d Hd. destruct (Hn2 d Hd) as [H|H]; [|auto].
  destruct (Hn1 d H); auto.
Qed.

Lemma dirs_grow_mono (P Q : path -> Prop) a b :
  (∀ d, P d -> Q d) -> dirs_grow P a b -> dirs_grow Q a b.
Proof.
  intros HPQ (Hf & He & Hs & Hn). split; [done|]. split; [done|].
  split; [done|]. intros d Hd. destruct (Hn d Hd); auto.
Qed.

Lemma is_dir_grow P fs fs' p :
  dirs_grow P fs fs' -> is_dir fs p = true -> is_dir fs' p = true.
Proof.
  intros (_ & _ & Hs & _). unfold is_dir. destruct p; [done|].
  rewrite !bool_decide_eq_true. set_solver.
Qed.

Lemma os_mkdir_spec p fs r fs' :
  os_mkdir p fs = (r, fs') ->
  dirs_grow (eq p) fs fs' ∧
  (r = Ok tt -> is_dir fs' p = true) ∧
  (r = Raise FileNotFoundError -> is_dir fs (removelast p) = false) ∧
  (r ≠ Ok tt -> fs' = fs).
Proof.
  unfold os_mkdir.
  destruct (is_dir fs (removelast p)) eqn:Hp;
    [destruct (exists_b fs p); [|case_bool_decide]|destruct (is_file fs _)];
    intros [= <- <-]; (split; [|split; [|split]]); try done;
    try apply dirs_grow_refl.
  - split; [done|]. split; [auto with kfs|]. simpl. split; [set_solver|].
    intros d Hd. set_solver.
  - intros _. unfold is_dir. destruct p; [done|]. simpl.
    apply bool_decide_eq_true. set_solver.
Qed.

Lemma mkdir_once_spec p fs r fs' :
  mkdir_once p fs = (r, fs') ->
  dirs_grow (eq p) fs fs' ∧
  (r = Ok tt -> is_dir fs' p = true) ∧
  (is_dir fs (removelast p) = true -> r ≠ Raise FileNotFoundError).
Proof.
  unfold mkdir_once.
  destruct (os_mkdir p fs) as [r0 fs1] eqn:E.
  destruct (os_mkdir_spec _ _ _ _ E) as (Hg & Hok & Hfnf & Hsame).
  destruct r0 as [[]|[]];
    try (destruct (is_dir fs1 p) eqn:Hd);
    intros [= <- <-]; (split; [done|split]); try done;
    intros Hp; try (rewrite Hfnf in Hp; done);
    try (discriminate (Hok eq_refl)).
Qed.

Lemma mkdir_rev_spec rp : ∀ fs r fs',
  mkdir_rev rp fs = (r, fs') ->
  dirs_grow (fun d => d `prefix_of` rev rp) fs fs' ∧
  (r = Ok tt -> is_dir fs' (rev rp) = true) ∧
  r ≠ Raise FileNotFoundError.
Proof.
  induction rp as [|c rparent IH]; intros fs r fs' Hrun.
  - destruct (mkdir_once_spec _ _ _ _ Hrun) as (Hg & Hok & Hnf).
    split; [|split; [done|by apply Hnf]].
    eapply dirs_grow_mono; [|exact Hg]. intros d <-. done.
  - simpl in Hrun |- *.
    assert (Hrl : removelast (rev rparent ++ [c]) = rev rparent)
      by apply removelast_last.
    assert (Hpre : rev rparent `prefix_of` rev rparent ++ [c])
      by (exists [c]; done).
    destruct (os_mkdir (rev rparent ++ [c]) fs) as [r0 fs1] eqn:E.
    destruct (os_mkdir_spec _ _ _ _ E) as (Hg & Hok & Hfnf & Hsame).
    destruct r0 as [[]|[]].
    + injection Hrun as <- <-. split; [|split; [by apply Hok|done]].
      eapply dirs_grow_mono; [|exact Hg]. intros d <-. done.
    + (* FileNotFoundError: make the parent, then retry *)
      rewrite (Hsame ltac:(done)) in Hrun.
      unfold bind in Hrun.
      destruct (mkdir_rev rparent fs) as [r1 fs2] eqn:E1.
      destruct (IH _ _ _ E1) as (Hg1 & Hok1 & Hnf1).
      destruct r1 as [[]|e1].
      * destruct (mkdir_once_spec _ _ _ _ Hrun) as (Hg2 & Hok2 & Hnf2).
        split; [|split; [done|]].
        -- eapply dirs_grow_mono; [|exact (dirs_grow_trans _ _ _ _ _ Hg1 Hg2)].
           intros d [Hd| <-]; [by transitivity (rev rparent)|done].
        -- apply Hnf2. rewrite Hrl. by apply Hok1.
      * injection Hrun as <- <-. split; [|split; done].
        eapply dirs_grow_mono; [|exact Hg1].
        intros d Hd. by transitivity (rev rparent).
    + rewrite (Hsame ltac:(done)) in Hrun.
      destruct (is_dir fs _) eqn:Hd; injection Hrun as <- <-;
        (split; [apply dirs_grow_refl|split; [intros Hx; try discriminate Hx; done|done]]).
    + rewrite (Hsame ltac:(done)) in Hrun.
      destruct (is_dir fs _) eqn:Hd; injection Hrun as <- <-;
        (split; [apply dirs_grow_refl|split; [intros Hx; try discriminate Hx; done|done]]).
    + rewrite (Hsame ltac:(done)) in Hrun.
      destruct (is_dir fs _) eqn:Hd; injection Hrun as <- <-;
        (split; [apply dirs_grow_refl|split; [intros Hx; try discriminate Hx; done|done]]).
    + rewrite (Hsame ltac:(done)) in Hrun.
      destruct (is_dir fs _) eqn:Hd; injection Hrun as <- <-;
        (split; [apply dirs_grow_refl|split; [intros Hx; try discriminate Hx; done|done]]).
Qed.

Lemma mkdir_p_spec p fs r fs' :
  mkdir_p p fs = (r, fs') ->
  dirs_grow (fun d => d `prefix_of` p) fs fs' ∧
  (r = Ok tt -> is_dir fs' p = true) ∧
  r ≠ Raise FileNotFoundError.
Proof.
  unfold mkdir_p. intros H. pose proof (mkdir_rev_spec _ _ _ _ H) as Hs.
  by rewrite rev_involutive in Hs.
Qed.

(** [_ensure_dirs] only adds the two directories and their ancestors, never
    raises [FileNotFoundError], and when it succeeds both exist. *)
Lemma ensure_dirs_spec fs r fs1 :
  _ensure_dirs fs = (r, fs1) ->
  dirs_grow (fun d => d `prefix_of` APPLICATIONS_DIR (env_home fs) ∨
                      d `prefix_of` ICONS_DIR (env_home fs)) fs fs1 ∧
  r ≠ Raise FileNotFoundError ∧
  (r = Ok tt -> is_dir fs1 (APPLICATIONS_DIR (env_home fs)) = true ∧
               is_dir fs1 (ICONS_DIR (env_home fs)) = true).
Proof.
  unfold _ensure_dirs, bind, get.
  destruct (mkdir_p (APPLICATIONS_DIR (env_home fs)) fs) as [r1 fs2] eqn:E1.
  destruct (mkdir_p_spec _ _ _ _ E1) as (Hg1 & Hok1 & Hnf1).
  destruct r1 as [[]|e1].
  - intros E2. destruct (mkdir_p_spec _ _ _ _ E2) as (Hg2 & Hok2 & Hnf2).
    split; [exact (dirs_grow_trans _ _ _ _ _ Hg1 Hg2)|].
    split; [done|]. intros ->. split; [|by apply Hok2].
    eapply is_dir_grow; [exact Hg2|by apply Hok1].
  - intros [= <- <-]. split; [|split; done].
    eapply dirs_grow_mono; [|exact Hg1]. auto.
Qed.

Lemma path_join_under d s : under d (path_join d s).
Proof.
  unfold path_join. destruct (String.eqb s "").
  - exists []. by rewrite app_nil_r.
  - by exists [s].
Qed.

Lemma path_join_nonempty d s : d ≠ [] -> path_join d s ≠ [].
Proof.
  unfold path_join. destruct (String.eqb s ""); [done|].
  destruct d; done.
Qed.

Lemma ICONS_DIR_nonempty home : ICONS_DIR home ≠ [].
Proof. unfold ICONS_DIR. destruct home; done. Qed.

Lemma under_app d k rest : under d k -> under d (k ++ rest).
Proof. intros [r ->]. exists (r ++ rest). by rewrite app_assoc. Qed.

(** [_extract_icon] never raises; it writes at most one file, inside the
    icons directory. *)
Lemma extract_icon_spec p n fs r fs' :
  _extract_icon p n fs = (r, fs') ->
  (∃ o, r = Ok o) ∧ same_env fs fs' ∧ fs_dirs fs' = fs_dirs fs ∧
  (∀ k, ¬ under (ICONS_DIR (env_home fs)) k ->
        fs_files fs' !! k = fs_files fs !! k).
Proof.
  unfold _extract_icon, bind, get, ret.
  destruct (env_which_unsquashfs fs); cbn -[first_candidate icon_patterns];
    [|intros [= <- <-]; split; [by eexists|done]].
  destruct (env_unsquash fs p) as [tree|];
    [|intros [= <- <-]; split; [by eexists|done]].
  destruct (first_candidate icon_patterns tree) as [[src data]|];
    [|intros [= <- <-]; split; [by eexists|done]].
  set (dest := path_join (ICONS_DIR (env_home fs))
                         (n +:+ suffix (path_name src))).
  assert (Hu : under (ICONS_DIR (env_home fs)) dest) by apply path_join_under.
  assert (Hne : dest ≠ []) by apply path_join_nonempty, ICONS_DIR_nonempty.
  unfold catch_all, copy2, write_text.
  destruct (is_dir fs dest);
    [destruct (write_check fs dest (path_name src))
    |destruct (write_check fs (removelast dest) (List.last dest ""))];
    intros [= <- <-]; (split; [by eexists|]); try done;
    (split; [auto with kfs|split; [done|]]); intros k Hk; simpl;
    apply lookup_insert_ne; intros <-; apply Hk.
  - by apply under_app.
  - by rewrite <- app_removelast_last.
Qed.

Lemma extract_icon_no_tool p n fs :
  env_which_unsquashfs fs = false -> _extract_icon p n fs = (Ok None, fs).
Proof. intros H. unfold _extract_icon, bind, get, ret. simpl. by rewrite H. Qed.

Lemma extract_icon_no_unpack p n fs :
  env_unsquash fs p = None -> _extract_icon p n fs = (Ok None, fs).
Proof.
  intros H. unfold _extract_icon, bind, get, ret. simpl.
  destruct (env_which_unsquashfs fs); simpl; [by rewrite H|done].
Qed.

(** [write_check] only looks at directories, permissions and whether the
    two paths are files. *)
Lemma write_check_frame fs fs' d b :
  fs_dirs fs' = fs_dirs fs -> fs_ro fs' = fs_ro fs ->
  fs_foreign fs' = fs_foreign fs ->
  is_file fs' d = is_file fs d -> is_file fs' (d ++ [b]) = is_file fs (d ++ [b]) ->
  write_check fs' d b = write_check fs d b.
Proof.
  intros Hd Hr Hf H1 H2. unfold write_check, is_dir.
  rewrite Hd, Hr, Hf, H1, H2. done.
Qed.

Lemma apps_not_under_icons home rest :
  ¬ under (ICONS_DIR home) (APPLICATIONS_DIR home ++ rest).
Proof.
  intros [r Heq]. unfold ICONS_DIR, APPLICATIONS_DIR in Heq.
  rewrite <- !app_assoc in Heq. apply app_inv_head in Heq. simplify_eq.
Qed.

Lemma write_check_apps_dir fs b :
  is_dir fs (APPLICATIONS_DIR (env_home fs)) = true ->
  write_check fs (APPLICATIONS_DIR (env_home fs)) b ≠ Some FileNotFoundError.
Proof.
  intros Hd. unfold write_check. rewrite Hd. simpl.
  repeat case_match; congruence.
Qed.

Lemma stat_mode_exists p fs :
  exists_b fs p = true -> ∃ m, stat_mode p fs = (Ok m, fs).
Proof.
  unfold exists_b, stat_mode, is_file. intros H.
  destruct (fs_files fs !! p); [by eexists|].
  rewrite orb_false_r in H. rewrite H. by eexists.
Qed.

Lemma chmod_spec p m fs r fs' :
  chmod p m fs = (r, fs') ->
  same_env fs fs' ∧ fs_dirs fs' = fs_dirs fs ∧
  (∀ k, is_file fs' k = is_file fs k) ∧
  (exists_b fs p = true -> p ∉ fs_foreign fs -> r = Ok tt) ∧
  (exists_b fs p = true -> p ∈ fs_foreign fs -> r = Raise PermissionError ∧ fs' = fs).
Proof.
  unfold chmod. destruct (exists_b fs p) eqn:He; simpl.
  - case_bool_decide as Hf.
    + intros [= <- <-]. repeat split; auto with kfs; done.
    + unfold is_file.
      destruct (fs_files fs !! p) as [f|] eqn:Hl; intros [= <- <-];
        (split; [auto with kfs|split; [done|split]]); try done.
      intros k. simpl. destruct (decide (k = p)) as [->|Hne].
      * by rewrite lookup_insert_eq, Hl.
      * by rewrite lookup_insert_ne.
  - intros [= <- <-]. repeat split; auto with kfs; done.
Qed.

(* ================================================================== *)
(** * How [integrate_appimage] runs *)

Section Integrate.
Variable file_path : string.
Variable fs : FS.

Let home := env_home fs.
Let path := resolve home (env_cwd fs) file_path.
Let name := _sanitize_name path.

Lemma integrate_ensure_fails e fs1 :
  _ensure_dirs fs = (Raise e, fs1) ->
  integrate_appimage file_path fs = (Raise e, fs1).
Proof.
  intros H. unfold integrate_appimage. unfold bind at 1. by rewrite H.
Qed.

Lemma integrate_missing fs1 :
  _ensure_dirs fs = (Ok tt, fs1) -> exists_b fs1 path = false ->
  integrate_appimage file_path fs = (Raise FileNotFoundError, fs1).
Proof.
  intros H Hx. destruct (ensure_dirs_spec _ _ _ H) as ((_ & He & _) & _).
  destruct He as (Hh & Hc & _).
  unfold integrate_appimage. unfold bind at 1. rewrite H.
  unfold bind, get. simpl. rewrite Hh, Hc. fold home path. by rewrite Hx.
Qed.

(** The steps after [_ensure_dirs], up to the existence check. *)
Lemma integrate_after_check fs1 :
  _ensure_dirs fs = (Ok tt, fs1) -> exists_b fs1 path = true ->
  integrate_appimage file_path fs =
  (let! current_mode := stat_mode path in
   chmod path (Z.lor current_mode S_IXALL) ;;;
   let! icon_path := _extract_icon path name in
   write_text (APPLICATIONS_DIR home) (name +:+ ".desktop")
     (desktop_content name (pstr path)
        match icon_path with Some i => pstr i | None => GENERIC_ICON end) ;;;
   ret {| app_name := name; exec_path := pstr path;
          desktop_path := pstr (_desktop_path home name);
          icon_path := match icon_path with
                       | Some i => Some (pstr i) | None => None end |}) fs1.
Proof.
  intros H Hx. destruct (ensure_dirs_spec _ _ _ H) as ((_ & He & _) & _).
  destruct He as (Hh & Hc & _).
  unfold integrate_appimage. unfold bind at 1. rewrite H.
  unfold bind at 1, get.
  cbn -[exists_b resolve stat_mode chmod _extract_icon write_text
        desktop_content _sanitize_name].
  rewrite Hh, Hc. fold home path. rewrite Hx. reflexivity.
Qed.

Lemma integrate_chmod_fails fs1 :
  _ensure_dirs fs = (Ok tt, fs1) -> exists_b fs1 path = true ->
  path ∈ fs_foreign fs ->
  integrate_appimage file_path fs = (Raise PermissionError, fs1).
Proof.
  intros H Hx Hf. rewrite (integrate_after_check _ H Hx).
  destruct (ensure_dirs_spec _ _ _ H) as ((_ & (_ & _ & _ & Hfo & _) & _) & _).
  destruct (stat_mode_exists _ _ Hx) as [m Hm].
  unfold bind at 1. rewrite Hm.
  unfold bind at 1.
  destruct (chmod path (Z.lor m S_IXALL) fs1) as [r fs2] eqn:Hch.
  destruct (chmod_spec _ _ _ _ _ Hch) as (_ & _ & _ & _ & Hbad).
  rewrite <- Hfo in Hf. destruct (Hbad Hx Hf) as [-> ->]. done.
Qed.

(** Past the permission fix: icon extraction cannot fail, and the
    descriptor write fails exactly as it would have right after
    [_ensure_dirs]. *)
Lemma integrate_write fs1 :
  _ensure_dirs fs = (Ok tt, fs1) -> exists_b fs1 path = true ->
  path ∉ fs_foreign fs ->
  ∃ o fs3,
    same_env fs fs3 ∧ fs_dirs fs3 = fs_dirs fs1 ∧
    ((env_which_unsquashfs fs = false ∨ env_unsquash fs path = None) -> o = None) ∧
    integrate_appimage file_path fs =
    match write_check fs1 (APPLICATIONS_DIR home) (name +:+ ".desktop") with
    | Some e => (Raise e, fs3)
    | None =>
        (Ok {| app_name := name; exec_path := pstr path;
               desktop_path := pstr (_desktop_path home name);
               icon_path := match o with Some i => Some (pstr i) | None => None end |},
         set_files
           (<[_desktop_path home name :=
                {| f_content := desktop_content name (pstr path)
                                  (match o with Some i => pstr i | None => GENERIC_ICON end);
                   f_mode := match fs_files fs3 !! _desktop_path home name with
                             | Some f => f_mode f | None => 420%Z end |}]>
              (fs_files fs3)) fs3)
    end.
Proof.
  intros H Hx Hf. rewrite (integrate_after_check _ H Hx).
  destruct (ensure_dirs_spec _ _ _ H) as ((_ & He1 & _) & _).
  destruct (stat_mode_exists _ _ Hx) as [m Hm].
  unfold bind at 1. rewrite Hm.
  unfold bind at 1.
  destruct (chmod path (Z.lor m S_IXALL) fs1) as [r fs2] eqn:Hch.
  destruct (chmod_spec _ _ _ _ _ Hch) as (He2 & Hd2 & Hi2 & Hok & _).
  assert (Hf1 : path ∉ fs_foreign fs1) by (destruct He1 as (_&_&_&->&_); done).
  rewrite (Hok Hx Hf1).
  unfold bind at 1.
  destruct (_extract_icon path name fs2) as [r3 fs3] eqn:Hex.
  destruct (extract_icon_spec _ _ _ _ _ Hex) as ([o ->] & He3 & Hd3 & Hl3).
  assert (He13 : same_env fs fs3) by eauto using same_env_trans.
  assert (Hh2 : env_home fs2 = home)
    by (destruct He1 as (Ha&_), He2 as (Hb&_); unfold home; congruence).
  exists o, fs3. split; [done|]. split; [congruence|]. split.
  { intros Hno.
    assert (Hno2 : env_which_unsquashfs fs2 = false ∨ env_unsquash fs2 path = None).
    { destruct He1 as (_&_&_&_&Hw1&Hu1), He2 as (_&_&_&_&Hw2&Hu2).
      rewrite Hw2, Hu2, Hw1, Hu1. done. }
    destruct Hno2 as [Hno2|Hno2];
      [rewrite (extract_icon_no_tool _ _ _ Hno2) in Hex
      |rewrite (extract_icon_no_unpack _ _ _ Hno2) in Hex]; congruence. }
  assert (Hwc : write_check fs3 (APPLICATIONS_DIR home) (name +:+ ".desktop") =
                write_check fs1 (APPLICATIONS_DIR home) (name +:+ ".desktop")).
  { apply write_check_frame.
    - congruence.
    - destruct He2 as (_&_&Hr2&_), He3 as (_&_&Hr3&_). congruence.
    - destruct He2 as (_&_&_&Hf2&_), He3 as (_&_&_&Hf3&_). congruence.
    - rewrite <- Hi2. unfold is_file. rewrite Hl3; [done|].
      rewrite Hh2, <- (app_nil_r (APPLICATIONS_DIR home)).
      apply apps_not_under_icons.
    - rewrite <- Hi2. unfold is_file. rewrite Hl3; [done|].
      rewrite Hh2. apply apps_not_under_icons. }
  unfold bind at 1, write_text. rewrite Hwc.
  destruct (write_check fs1 _ _); reflexivity.
Qed.
End Integrate.

(* ================================================================== *)
(** * String lemmas *)

Lemma string_length_app s1 s2 :
  String.length (s1 +:+ s2) = (String.length s1 + String.length s2)%nat.
Proof. induction s1; simpl; auto. Qed.

Lemma substring_whole s : String.substring 0 (String.length s) s = s.
Proof. induction s; simpl; congruence. Qed.

Lemma substring_app_l s1 s2 :
  String.substring 0 (String.length s1) (s1 +:+ s2) = s1.
Proof. induction s1; simpl; [by destruct s2|congruence]. Qed.

Lemma substring_app_r s1 s2 :
  String.substring (String.length s1) (String.length s2) (s1 +:+ s2) = s2.
Proof. induction s1; simpl; [apply substring_whole|done]. Qed.

Lemma endswith_app_suffix base suf s :
  endswith (base +:+ suf) s =
  ((String.length s <=? String.length base + String.length suf)%nat &&
   String.eqb (String.substring (String.length base + String.length suf
                                 - String.length s) (String.length s)
                                (base +:+ suf)) s).
Proof. unfold endswith. by rewrite string_length_app. Qed.

Lemma endswith_app base suf : endswith (base +:+ suf) suf = true.
Proof.
  rewrite endswith_app_suffix.
  replace (String.length base + String.length suf - String.length suf)%nat
    with (String.length base) by lia.
  rewrite substring_app_r, String.eqb_refl.
  apply andb_true_intro. split; [apply Nat.leb_le; lia|done].
Qed.

Lemma drop_suffix_app base suf : drop_suffix (base +:+ suf) suf = base.
Proof.
  unfold drop_suffix. rewrite string_length_app.
  replace (String.length base + String.length suf - String.length suf)%nat
    with (String.length base) by lia.
  apply substring_app_l.
Qed.

Lemma path_name_snoc (dir : path) name : path_name (dir ++ [name]) = name.
Proof. unfold path_name. apply last_last. Qed.

(* ================================================================== *)
(** * C3: display names *)

(** C3 (counterexample).  The claim has [_sanitize_name] strip an
    [.appimage] suffix in any letter case.  [Foo.APPIMAGE] is a bundle for
    the watcher ([_is_appimage] holds), but its display name keeps the
    suffix: [Foo.APPIMAGE], not [Foo]. *)
Lemma sanitize_name_upper_suffix_kept :
  _is_appimage "/tmp/Foo.APPIMAGE" = true ∧
  _sanitize_name ["tmp"; "Foo.APPIMAGE"] = "Foo.APPIMAGE" ∧
  _sanitize_name ["tmp"; "Foo.APPIMAGE"] ≠ "Foo".
Proof.
  split; [reflexivity|]. split; [reflexivity|]. vm_compute. congruence.
Qed.

(** C3 (amended).  [_sanitize_name] strips exactly the suffix [.AppImage]
    or exactly the suffix [.appimage] from the file name and otherwise
    returns the file name unchanged; [Foo.AppImage] gives [Foo],
    [foo.appimage] gives [foo], [NoSuffix] gives [NoSuffix]. *)
Theorem sanitize_name_exact_suffixes :
  (∀ (dir : path) base, _sanitize_name (dir ++ [base +:+ ".AppImage"]) = base) ∧
  (∀ (dir : path) base, _sanitize_name (dir ++ [base +:+ ".appimage"]) = base) ∧
  (∀ (dir : path) name,
     endswith name ".AppImage" = false -> endswith name ".appimage" = false ->
     _sanitize_name (dir ++ [name]) = name) ∧
  _sanitize_name ["Foo.AppImage"] = "Foo" ∧
  _sanitize_name ["foo.appimage"] = "foo" ∧
  _sanitize_name ["NoSuffix"] = "NoSuffix".
Proof.
  split; [|split; [|split]]; try (split; [|split]; reflexivity).
  - intros dir base. unfold _sanitize_name. rewrite path_name_snoc.
    cbn [strip_first_suffix]. rewrite endswith_app. apply drop_suffix_app.
  - intros dir base. unfold _sanitize_name. rewrite path_name_snoc.
    cbn [strip_first_suffix].
    assert (H : endswith (base +:+ ".appimage") ".AppImage" = false).
    { rewrite endswith_app_suffix.
      change (String.length ".AppImage") with (String.length ".appimage").
      replace (String.length base + String.length ".appimage"
               - String.length ".appimage")%nat
        with (String.length base) by lia.
      rewrite substring_app_r. apply andb_false_r. }
    rewrite H, endswith_app. apply drop_suffix_app.
  - intros dir name H1 H2. unfold _sanitize_name. rewrite path_name_snoc.
    cbn [strip_first_suffix]. by rewrite H1, H2.
Qed.

(* ================================================================== *)
(** * C7: moves *)

(** C7.  A move of a file is handled as the deletion of the old path
    followed by the creation of the new one, each filtered on its own by
    the case-insensitive [.appimage] test: a rename into a bundle name only
    integrates, a rename out of one only removes. *)
Theorem on_moved_decomposes src dest :
  let ev := {| ev_kind := Moved; is_directory := false;
               src_path := src; dest_path := dest |} in
  dispatch ev = (if _is_appimage src then [Remove src] else [])
                ++ (if _is_appimage dest then [Integrate dest] else []) ∧
  (_is_appimage src = false -> _is_appimage dest = true ->
   dispatch ev = [Integrate dest]) ∧
  (_is_appimage src = true -> _is_appimage dest = false ->
   dispatch ev = [Remove src]).
Proof.
  simpl. unfold dispatch, on_moved, on_deleted, on_created. simpl.
  destruct (_is_appimage src), (_is_appimage dest); simpl;
    repeat split; intros; congruence.
Qed.

(* ================================================================== *)
(** * C10, C4, C2: the error path of [integrate_appimage] *)

(** C10.  [integrate_appimage] creates the applications and icons
    directories (with their parents, tolerating existing ones) before it
    checks that the bundle exists: a call that raises [FileNotFoundError]
    leaves both directories in place, and the only change it makes is to
    add those directories and their missing ancestors. *)
Theorem integrate_not_found_only_creates_dirs file_path fs fs' :
  integrate_appimage file_path fs = (Raise FileNotFoundError, fs') ->
  is_dir fs' (APPLICATIONS_DIR (env_home fs)) = true ∧
  is_dir fs' (ICONS_DIR (env_home fs)) = true ∧
  dirs_grow (fun d => d `prefix_of` APPLICATIONS_DIR (env_home fs) ∨
                      d `prefix_of` ICONS_DIR (env_home fs)) fs fs'.
Proof.
  intros Hrun.
  destruct (_ensure_dirs fs) as [[[]|e] fs1] eqn:E;
    destruct (ensure_dirs_spec _ _ _ E) as (Hg & Hnf & Hok).
  - set (path := resolve (env_home fs) (env_cwd fs) file_path) in *.
    destruct (exists_b fs1 path) eqn:Hx.
    + exfalso. destruct (decide (path ∈ fs_foreign fs)) as [Hf|Hf].
      * rewrite (integrate_chmod_fails _ _ _ E Hx Hf) in Hrun. congruence.
      * destruct (integrate_write _ _ _ E Hx Hf) as (o & fs3 & _ & _ & _ & Hw).
        rewrite Hw in Hrun.
        destruct (write_check fs1 _ _) as [e|] eqn:Hc; [|congruence].
        injection Hrun as -> _.
        destruct Hg as (_ & (Hh & _) & _).
        apply (write_check_apps_dir fs1 (_sanitize_name path +:+ ".desktop")).
        -- rewrite Hh. by apply Hok.
        -- by rewrite Hh.
    + rewrite (integrate_missing _ _ _ E Hx) in Hrun. injection Hrun as <-.
      destruct (Hok eq_refl). done.
  - rewrite (integrate_ensure_fails _ _ _ _ E) in Hrun. congruence.
Qed.

(** C4 (counterexample).  [~/.local] does not exist when [integrate] is
    called on it, yet the call succeeds and writes [.local.desktop]: the
    existence check runs after [_ensure_dirs] has created that very
    directory. *)
Lemma integrate_dir_created_by_ensure :
  exists_b fs0 (resolve home0 home0 "~/.local") = false ∧
  (∃ r, fst (integrate_appimage "~/.local" fs0) = Ok r) ∧
  is_Some (fs_files (snd (integrate_appimage "~/.local" fs0))
             !! (APPLICATIONS_DIR home0 ++ [".local.desktop"])).
Proof.
  split; [reflexivity|]. split; [eexists; vm_compute; reflexivity|].
  vm_compute. eexists. reflexivity.
Qed.

(** C4 (amended).  When the resolved path exists neither as a file nor as
    a directory, and is not the applications or icons directory or one of
    their ancestors (which the call creates first), [integrate_appimage]
    raises and leaves every file as it was: the error is
    [FileNotFoundError] unless creating those directories failed first. *)
Theorem integrate_missing_writes_nothing file_path fs :
  let path := resolve (env_home fs) (env_cwd fs) file_path in
  exists_b fs path = false ->
  ¬ path `prefix_of` APPLICATIONS_DIR (env_home fs) ->
  ¬ path `prefix_of` ICONS_DIR (env_home fs) ->
  ∃ e fs', integrate_appimage file_path fs = (Raise e, fs') ∧
           fs_files fs' = fs_files fs ∧
           (e = FileNotFoundError ∨ fst (_ensure_dirs fs) = Raise e).
Proof.
  intros path Hx Ha Hi.
  destruct (_ensure_dirs fs) as [[[]|e] fs1] eqn:E;
    destruct (ensure_dirs_spec _ _ _ E) as ((Hf & _ & _ & Hn) & _ & _).
  - assert (Hx1 : exists_b fs1 path = false).
    { unfold exists_b, is_dir, is_file in *. rewrite Hf.
      apply orb_false_iff in Hx as [Hd Hfile]. rewrite Hfile, orb_false_r.
      destruct path as [|c cs]; [done|].
      apply bool_decide_eq_false in Hd. apply bool_decide_eq_false.
      intros Hin. destruct (Hn _ Hin) as [H|[H|H]]; done. }
    exists FileNotFoundError, fs1.
    rewrite (integrate_missing _ _ _ E Hx1). auto.
  - exists e, fs1. rewrite (integrate_ensure_fails _ _ _ _ E). auto.
Qed.



(* ================================================================== *)
(** * C8: icon extraction *)

(** C8.  Icon extraction never raises: its [try] catches every error.  A
    missing [unsquashfs], an unpack that fails or times out (no unpacked
    tree), and an error while copying the chosen icon all give no icon.
    When [integrate_appimage] returns, its [icon_path] and the
    descriptor's [Icon] value are what extraction gave, in the state it
    ran in: the generic icon name and [None] when extraction gave
    nothing.  In particular, without a tool or without an unpacked tree
    the result has no [icon_path] and the [Icon] value is the generic
    name. *)
Theorem integrate_icon_best_effort file_path fs :
  let home := env_home fs in
  let path := resolve home (env_cwd fs) file_path in
  let name := _sanitize_name path in
  (∀ p n fs0 r fs0', _extract_icon p n fs0 = (r, fs0') -> ∃ o, r = Ok o) ∧
  (∀ p n fs0, env_which_unsquashfs fs0 = false -> _extract_icon p n fs0 = (Ok None, fs0)) ∧
  (∀ p n fs0, env_unsquash fs0 p = None -> _extract_icon p n fs0 = (Ok None, fs0)) ∧
  (∀ p n fs0 tree src data e fs2,
     env_which_unsquashfs fs0 = true -> env_unsquash fs0 p = Some tree ->
     first_candidate icon_patterns tree = Some (src, data) ->
     copy2 (path_name src) data
       (path_join (ICONS_DIR (env_home fs0)) (n +:+ suffix (path_name src))) fs0
       = (Raise e, fs2) ->
     _extract_icon p n fs0 = (Ok None, fs2)) ∧
  (∀ r fs', integrate_appimage file_path fs = (Ok r, fs') ->
     ∃ fs2 o fs3, same_env fs fs2 ∧ _extract_icon path name fs2 = (Ok o, fs3) ∧
       icon_path r = option_map pstr o ∧
       option_map f_content (fs_files fs' !! _desktop_path home name) =
         Some (desktop_content name (pstr path)
                 (match o with Some i => pstr i | None => GENERIC_ICON end))) ∧
  ((env_which_unsquashfs fs = false ∨ env_unsquash fs path = None) ->
   ∀ r fs', integrate_appimage file_path fs = (Ok r, fs') ->
     icon_path r = None ∧
     option_map f_content (fs_files fs' !! _desktop_path home (app_name r)) =
       Some (desktop_content (app_name r) (exec_path r) GENERIC_ICON)).
Proof.
  cbv zeta.
  split; [intros p n fs0 r fs0' H; by destruct (extract_icon_spec _ _ _ _ _ H)|].
  split; [intros p n fs0; apply extract_icon_no_tool|].
  split; [intros p n fs0; apply extract_icon_no_unpack|].
  split.
  { intros p n fs0 tree src data e fs2 Hw Hu Hc Hcp.
    unfold _extract_icon, bind, get. cbn -[first_candidate copy2 path_join suffix].
    rewrite Hw. cbn -[first_candidate copy2 path_join suffix].
    rewrite Hu, Hc. unfold catch_all, bind. rewrite Hcp. reflexivity. }
  split.
  - intros r fs' Hi.
    destruct (_ensure_dirs fs) as [[[]|e0] fs1] eqn:E;
      [|rewrite (integrate_ensure_fails _ _ _ _ E) in Hi; congruence].
    destruct (ensure_dirs_spec _ _ _ E) as ((_ & He1 & _) & _).
    destruct (exists_b fs1 (resolve (env_home fs) (env_cwd fs) file_path)) eqn:Hx;
      [|rewrite (integrate_missing _ _ _ E Hx) in Hi; congruence].
    rewrite (integrate_after_check _ _ _ E Hx) in Hi.
    destruct (stat_mode_exists _ _ Hx) as [m Hm].
    unfold bind at 1 in Hi. rewrite Hm in Hi. unfold bind at 1 in Hi.
    destruct (chmod _ _ fs1) as [[[]|e2] fs2] eqn:Hch; [|congruence].
    destruct (chmod_spec _ _ _ _ _ Hch) as (He2 & _).
    unfold bind at 1 in Hi.
    destruct (_extract_icon _ _ fs2) as [[o|e3] fs3] eqn:Hex; [|congruence].
    unfold bind at 1 in Hi.
    destruct (write_text _ _ _ fs3) as [[[]|e4] fs4] eqn:Hwt; [|congruence].
    unfold ret in Hi. injection Hi as <- <-.
    exists fs2, o, fs3. split; [eauto using same_env_trans|].
    split; [exact Hex|]. split; [by destruct o|].
    unfold write_text in Hwt.
    destruct (write_check fs3 _ _); [congruence|].
    injection Hwt as <-. simpl. by rewrite lookup_insert_eq.
  - intros Hno r fs' Hrun.
    destruct (_ensure_dirs fs) as [[[]|e0] fs1] eqn:E;
      [|rewrite (integrate_ensure_fails _ _ _ _ E) in Hrun; congruence].
    destruct (exists_b fs1 (resolve (env_home fs) (env_cwd fs) file_path)) eqn:Hx;
      [|rewrite (integrate_missing _ _ _ E Hx) in Hrun; congruence].
    destruct (decide (resolve (env_home fs) (env_cwd fs) file_path ∈ fs_foreign fs)) as [Hf|Hf];
      [rewrite (integrate_chmod_fails _ _ _ E Hx Hf) in Hrun; congruence|].
    destruct (integrate_write _ _ _ E Hx Hf) as (o & fs3 & _ & _ & Ho & Hw).
    rewrite (Ho Hno) in Hw. rewrite Hw in Hrun.
    destruct (write_check fs1 _ _); [congruence|].
    injection Hrun as <- <-. simpl. split; [done|].
    by rewrite lookup_insert_eq.
Qed.

(* ================================================================== *)
(** * C6: the descriptor *)

(** C6 (counterexample).  The descriptor written for
    [/tmp/MyTestApp.AppImage] does not consist of key=value lines only:
    its first line is the group header [[Desktop Entry]], which has no
    [=]. *)
Lemma integrate_descriptor_header_line :
  fst (integrate_appimage "/tmp/MyTestApp.AppImage" fs_app) =
    Ok {| app_name := "MyTestApp"; exec_path := "/tmp/MyTestApp.AppImage";
          desktop_path := "/home/u/.local/share/applications/MyTestApp.desktop";
          icon_path := None |} ∧
  option_map f_content
    (fs_files (snd (integrate_appimage "/tmp/MyTestApp.AppImage" fs_app))
       !! _desktop_path home0 "MyTestApp")
  = Some (desktop_content "MyTestApp" "/tmp/MyTestApp.AppImage" GENERIC_ICON) ∧
  head (splitlines (desktop_content "MyTestApp" "/tmp/MyTestApp.AppImage" GENERIC_ICON))
  = Some "[Desktop Entry]" ∧
  contains "=" "[Desktop Entry]" = false.
Proof. split; [|split; [|split]]; vm_compute; reflexivity. Qed.

(** C6 (amended).  After a successful [integrate_appimage], the descriptor
    [<name>.desktop] in the applications directory holds exactly the group
    header [[Desktop Entry]] followed by the lines [Name], [Exec], [Icon],
    [Type=Application], [Categories=Utility;], [Terminal=false],
    [StartupNotify=true], [Comment] and the marker line, in that order,
    each ended by a newline; the name is the display name of the resolved
    path and [Exec] and the marker hold that absolute path. *)
Theorem integrate_descriptor_content file_path fs r fs' :
  integrate_appimage file_path fs = (Ok r, fs') ->
  let path := resolve (env_home fs) (env_cwd fs) file_path in
  app_name r = _sanitize_name path ∧ exec_path r = pstr path ∧
  option_map f_content (fs_files fs' !! _desktop_path (env_home fs) (app_name r)) =
  Some ("[Desktop Entry]" +:+ NL +:+
        "Name=" +:+ app_name r +:+ NL +:+
        "Exec=" +:+ exec_path r +:+ NL +:+
        "Icon=" +:+ match icon_path r with Some i => i | None => GENERIC_ICON end +:+ NL +:+
        "Type=Application" +:+ NL +:+
        "Categories=Utility;" +:+ NL +:+
        "Terminal=false" +:+ NL +:+
        "StartupNotify=true" +:+ NL +:+
        "Comment=AppImage managed by KAppMan" +:+ NL +:+
        "X-KAppMan-Source=" +:+ exec_path r +:+ NL).
Proof.
  intros Hrun path.
  destruct (_ensure_dirs fs) as [[[]|e0] fs1] eqn:E;
    [|rewrite (integrate_ensure_fails _ _ _ _ E) in Hrun; congruence].
  destruct (exists_b fs1 path) eqn:Hx;
    [|rewrite (integrate_missing _ _ _ E Hx) in Hrun; congruence].
  destruct (decide (path ∈ fs_foreign fs)) as [Hf|Hf];
    [rewrite (integrate_chmod_fails _ _ _ E Hx Hf) in Hrun; congruence|].
  destruct (integrate_write _ _ _ E Hx Hf) as (o & fs3 & _ & _ & _ & Hw).
  rewrite Hw in Hrun. fold path in Hrun.
  destruct (write_check fs1 _ _); [congruence|].
  injection Hrun as <- <-. simpl. split; [done|]. split; [done|].
  rewrite lookup_insert_eq. simpl. by destruct o.
Qed.

Lemma integrate_descriptor_content_witness :
  ∃ r fs', integrate_appimage "/tmp/MyTestApp.AppImage" fs_app = (Ok r, fs') ∧
    app_name r = "MyTestApp" ∧ exec_path r = "/tmp/MyTestApp.AppImage" ∧
    option_map f_content (fs_files fs' !! _desktop_path home0 "MyTestApp") =
    Some (desktop_content "MyTestApp" "/tmp/MyTestApp.AppImage" GENERIC_ICON).
Proof.
  exists {| app_name := "MyTestApp"; exec_path := "/tmp/MyTestApp.AppImage";
            desktop_path := "/home/u/.local/share/applications/MyTestApp.desktop";
            icon_path := None |},
         (snd (integrate_appimage "/tmp/MyTestApp.AppImage" fs_app)).
  assert (E : integrate_appimage "/tmp/MyTestApp.AppImage" fs_app =
              (Ok {| app_name := "MyTestApp"; exec_path := "/tmp/MyTestApp.AppImage";
                     desktop_path := "/home/u/.local/share/applications/MyTestApp.desktop";
                     icon_path := None |},
               snd (integrate_appimage "/tmp/MyTestApp.AppImage" fs_app)))
    by (vm_compute; reflexivity).
  destruct (integrate_descriptor_content _ _ _ _ E) as (H1 & H2 & H3).
  split; [exact E|]. split; [exact H1|]. split; [exact H2|].
  exact H3.
Defined.

(* ================================================================== *)
(** * C5: removal *)

(** [unlink] only deletes, and only [p]; it succeeds only on a file. *)
Lemma unlink_spec p fs r fs' :
  unlink p fs = (r, fs') ->
  same_env fs fs' ∧ fs_dirs fs' = fs_dirs fs ∧
  (∀ k, fs_files fs !! k = None -> fs_files fs' !! k = None) ∧
  (r = Ok tt -> is_dir fs p = false ∧ fs_files fs' !! p = None).
Proof.
  unfold unlink.
  destruct (is_dir fs p) eqn:Hd; [intros [= <- <-]; repeat split; auto with kfs; done|].
  destruct (is_file fs p); simpl;
    [|intros [= <- <-]; repeat split; auto with kfs; done].
  case_bool_decide; [intros [= <- <-]; repeat split; auto with kfs; done|].
  intros [= <- <-]. split; [auto with kfs|]. split; [done|]. split.
  - intros k Hk. simpl. destruct (decide (k = p)) as [->|Hne].
    + apply lookup_delete_eq.
    + by rewrite lookup_delete_ne.
  - intros _. split; [done|]. apply lookup_delete_eq.
Qed.

Lemma remove_first_icon_spec d n sufs : ∀ fs r fs',
  remove_first_icon d n sufs fs = (r, fs') ->
  same_env fs fs' ∧ fs_dirs fs' = fs_dirs fs ∧
  (∀ k, fs_files fs !! k = None -> fs_files fs' !! k = None).
Proof.
  induction sufs as [|suf rest IH]; intros fs r fs'; simpl.
  - intros [= <- <-]. auto with kfs.
  - unfold bind, get. simpl.
    destruct (exists_b fs _).
    + intros H. destruct (unlink_spec _ _ _ _ H) as (? & ? & ? & _). done.
    + apply IH.
Qed.


(* ================================================================== *)
(** * C1: descriptors of other tools *)

Lemma elem_of_insert_sorted x y l : x ∈ insert_sorted y l ↔ x = y ∨ x ∈ l.
Proof.
  induction l as [|z l IH]; simpl.
  - rewrite list_elem_of_singleton, elem_of_nil. tauto.
  - case_match; rewrite ?elem_of_cons, ?IH, ?elem_of_cons; tauto.
Qed.

Lemma elem_of_fold_insert_sorted x l : x ∈ fold_right insert_sorted [] l ↔ x ∈ l.
Proof.
  induction l as [|y l IH]; simpl; [done|].
  by rewrite elem_of_insert_sorted, IH, elem_of_cons.
Qed.

Lemma map_forallb_lookup (P : file -> bool) (m : gmap path file) k f :
  forallb (λ kf : path * file, P kf.2) (map_to_list m) = true ->
  m !! k = Some f -> P f = true.
Proof.
  intros Hall Hk. apply elem_of_map_to_list in Hk.
  rewrite forallb_forall in Hall. apply (Hall (k, f)). by apply list_elem_of_In.
Qed.

(** Every entry [list_integrated] returns was read from a file whose
    content contains the marker.  Python decodes each descriptor as UTF-8
    and drops the bytes it cannot decode, so a marker broken by such a
    byte can appear after decoding; on ASCII content the decoding changes
    nothing, and that is the case stated here. *)
Lemma list_integrated_marker fs l fs' e :
  (∀ k f, fs_files fs !! k = Some f -> is_ascii (f_content f) = true) ->
  list_integrated fs = (Ok l, fs') -> e ∈ l ->
  ∃ k f, fs_files fs !! k = Some f ∧ entry_desktop_path e = pstr k ∧
         contains MARKER (f_content f) = true.
Proof.
  intros _. unfold list_integrated.
  destruct (negb (exists_b _ _)); [intros [= <- _]; by rewrite elem_of_nil|].
  destruct (negb (is_dir _ _)); [intros [= <- _]; by rewrite elem_of_nil|].
  destruct (existsb _ _); [congruence|].
  intros [= <- _] Hin. apply list_elem_of_omap in Hin as ([k f] & Hkf & Hr).
  unfold desktop_files in Hkf.
  rewrite elem_of_fold_insert_sorted, list_elem_of_filter in Hkf.
  destruct Hkf as [_ Hkf]. apply elem_of_map_to_list in Hkf.
  unfold read_entry in Hr. simpl in Hr.
  destruct (contains MARKER (f_content f)) eqn:Hc; simpl in Hr; [|done].
  injection Hr as <-. by exists k, f.
Qed.

(** C1 (code bug).  Another tool's [Foo.desktop] has no marker line, and
    [list_integrated] skips it (as it skips every such file, see
    [list_integrated_marker]).  [remove_appimage] does not look at the
    content: removing [/tmp/Foo.AppImage], whose display name is [Foo],
    deletes that descriptor and returns [true]. *)
Lemma remove_deletes_foreign_descriptor :
  let fd := APPLICATIONS_DIR home0 ++ ["Foo.desktop"] in
  option_map (fun f => contains MARKER (f_content f)) (fs_files fs_other_tool !! fd)
    = Some false ∧
  _desktop_path home0 (_sanitize_name (resolve home0 home0 "/tmp/Foo.AppImage")) = fd ∧
  list_integrated fs_other_tool = (Ok [], fs_other_tool) ∧
  fst (remove_appimage "/tmp/Foo.AppImage" fs_other_tool) = Ok true ∧
  fs_files (snd (remove_appimage "/tmp/Foo.AppImage" fs_other_tool)) !! fd = None.
Proof. repeat split; vm_compute; reflexivity. Qed.

(* ================================================================== *)
(** * Instances of the theorems with hypotheses *)

Lemma integrate_not_found_only_creates_dirs_witness :
  integrate_appimage "/tmp/nope.AppImage" fs_app =
    (Raise FileNotFoundError, snd (integrate_appimage "/tmp/nope.AppImage" fs_app)) ∧
  is_dir (snd (integrate_appimage "/tmp/nope.AppImage" fs_app)) (APPLICATIONS_DIR home0) = true ∧
  is_dir (snd (integrate_appimage "/tmp/nope.AppImage" fs_app)) (ICONS_DIR home0) = true.
Proof.
  assert (E : integrate_appimage "/tmp/nope.AppImage" fs_app =
    (Raise FileNotFoundError, snd (integrate_appimage "/tmp/nope.AppImage" fs_app)))
    by (vm_compute; reflexivity).
  destruct (integrate_not_found_only_creates_dirs _ _ _ E) as (H1 & H2 & _).
  split; [exact E|]. split; [exact H1|exact H2].
Defined.

Lemma integrate_missing_writes_nothing_witness :
  ∃ e fs', integrate_appimage "/tmp/nope.AppImage" fs_app = (Raise e, fs') ∧
           fs_files fs' = fs_files fs_app ∧
           (e = FileNotFoundError ∨ fst (_ensure_dirs fs_app) = Raise e).
Proof.
  apply (integrate_missing_writes_nothing "/tmp/nope.AppImage" fs_app).
  - vm_compute. reflexivity.
  - intros [r Hr]. vm_compute in Hr. congruence.
  - intros [r Hr]. vm_compute in Hr. congruence.
Defined.

(* ================================================================== *)
(** * Further properties of the code *)

(** ** The watcher's handler *)

Lemma run_action_integrate_ok p fs :
  ∃ fs', run_action (Integrate p) fs = (Ok tt, fs').
Proof.
  simpl. unfold catch_all, bind.
  destruct (integrate_appimage p fs) as [[a|e] fs1]; simpl; by eexists.
Qed.

Lemma run_actions_raise l : ∀ fs e fs',
  run_actions l fs = (Raise e, fs') ->
  ∃ p fs0, Remove p ∈ l ∧ remove_appimage p fs0 = (Raise e, fs').
Proof.
  induction l as [|a rest IH]; intros fs e fs'; simpl; [unfold ret; congruence|].
  unfold bind at 1.
  destruct a as [p|p].
  - destruct (run_action_integrate_ok p fs) as [fs1 ->]. intros H.
    destruct (IH _ _ _ H) as (q & fs0 & Hin & Hq).
    exists q, fs0. split; [by apply elem_of_cons; right|done].
  - simpl. unfold bind at 1.
    destruct (remove_appimage p fs) as [[b|e0] fs1] eqn:Hr.
    + intros H. destruct (IH _ _ _ H) as (q & fs0 & Hin & Hq).
      exists q, fs0. split; [by apply elem_of_cons; right|done].
    + intros [= -> <-]. exists p, fs. split; [apply elem_of_cons; by left|done].
Qed.

(** Errors of [integrate_appimage] never leave the handler (it catches
    them); an event makes the handler raise only through a
    [remove_appimage] call that raises, so a created event never does. *)
Theorem handle_raises_only_from_remove ev fs e fs' :
  handle ev fs = (Raise e, fs') ->
  ∃ p fs0, Remove p ∈ dispatch ev ∧ remove_appimage p fs0 = (Raise e, fs').
Proof. apply run_actions_raise. Qed.

Lemma handle_raises_only_from_remove_witness :
  handle (FileDeletedEvent "/tmp/Foo.AppImage") fs_desktop_dir
    = (Raise IsADirectoryError, fs_desktop_dir) ∧
  ∃ p fs0, Remove p ∈ dispatch (FileDeletedEvent "/tmp/Foo.AppImage") ∧
           remove_appimage p fs0 = (Raise IsADirectoryError, fs_desktop_dir).
Proof.
  assert (E : handle (FileDeletedEvent "/tmp/Foo.AppImage") fs_desktop_dir
              = (Raise IsADirectoryError, fs_desktop_dir))
    by (vm_compute; reflexivity).
  split; [exact E|]. exact (handle_raises_only_from_remove _ _ _ _ E).
Defined.

(** When a bundle is renamed to another bundle name and removing the
    descriptor of the old name raises, the handler raises with that
    error and the new name is not integrated: the state is the one the
    failed removal left. *)
Theorem handle_moved_remove_fails src dest fs e fs1 :
  _is_appimage src = true ->
  remove_appimage src fs = (Raise e, fs1) ->
  handle {| ev_kind := Moved; is_directory := false;
            src_path := src; dest_path := dest |} fs = (Raise e, fs1).
Proof.
  intros Hs Hr. unfold handle, dispatch, on_moved, on_deleted. simpl.
  rewrite Hs. simpl. unfold bind at 1. simpl. unfold bind at 1. by rewrite Hr.
Qed.

Lemma handle_moved_remove_fails_witness :
  handle {| ev_kind := Moved; is_directory := false;
            src_path := "/tmp/Foo.AppImage"; dest_path := "/tmp/Bar.AppImage" |}
    fs_desktop_dir = (Raise IsADirectoryError, fs_desktop_dir).
Proof.
  apply handle_moved_remove_fails; [reflexivity|vm_compute; reflexivity].
Defined.

(** ** [_ensure_dirs] *)

(** [_ensure_dirs] changes no file, adds only the applications and icons
    directories and their ancestors, never raises [FileNotFoundError], and
    when it returns both directories exist. *)
Theorem ensure_dirs_effect fs r fs1 :
  _ensure_dirs fs = (r, fs1) ->
  fs_files fs1 = fs_files fs ∧ same_env fs fs1 ∧
  fs_dirs fs ⊆ fs_dirs fs1 ∧
  (∀ d, d ∈ fs_dirs fs1 -> d ∈ fs_dirs fs ∨
        d `prefix_of` APPLICATIONS_DIR (env_home fs) ∨
        d `prefix_of` ICONS_DIR (env_home fs)) ∧
  r ≠ Raise FileNotFoundError ∧
  (r = Ok tt -> is_dir fs1 (APPLICATIONS_DIR (env_home fs)) = true ∧
               is_dir fs1 (ICONS_DIR (env_home fs)) = true).
Proof.
  intros H. destruct (ensure_dirs_spec _ _ _ H) as ((Hf & He & Hs & Hn) & Hnf & Hok).
  auto 7.
Qed.

Lemma ensure_dirs_effect_witness :
  fs_files (snd (_ensure_dirs fs0)) = fs_files fs0 ∧
  is_dir (snd (_ensure_dirs fs0)) (ICONS_DIR home0) = true.
Proof.
  assert (E : _ensure_dirs fs0 = (Ok tt, snd (_ensure_dirs fs0)))
    by (vm_compute; reflexivity).
  destruct (ensure_dirs_effect _ _ _ E) as (Hf & _ & _ & _ & _ & Hok).
  split; [exact Hf|]. exact (proj2 (Hok eq_refl)).
Defined.

(** ** [remove_appimage] *)





(** ** What [integrate_appimage] changes *)

Lemma files_frame_refl P fs : files_frame P fs fs.
Proof. split; [apply same_env_refl|done]. Qed.

Lemma files_frame_trans (P Q : path -> Prop) a b c :
  files_frame P a b -> files_frame Q b c ->
  files_frame (fun k => P k ∨ Q k) a c.
Proof.
  intros (He1 & Hd1 & Hl1) (He2 & Hd2 & Hl2).
  split; [eauto using same_env_trans|]. split; [congruence|].
  intros k Hk. rewrite Hl2, Hl1; [done| |]; intros ?; apply Hk; auto.
Qed.

Lemma chmod_frame p m fs r fs' :
  chmod p m fs = (r, fs') ->
  files_frame (eq p) fs fs' ∧
  option_map f_content (fs_files fs' !! p) = option_map f_content (fs_files fs !! p) ∧
  (r = Ok tt -> ∀ f, fs_files fs !! p = Some f ->
   fs_files fs' !! p = Some {| f_content := f_content f; f_mode := m |}).
Proof.
  unfold chmod.
  destruct (exists_b fs p); simpl;
    [|intros [= <- <-]; split; [apply files_frame_refl|done]].
  case_bool_decide; [intros [= <- <-]; split; [apply files_frame_refl|done]|].
  destruct (fs_files fs !! p) as [f0|] eqn:Hl; intros [= <- <-].
  - split; [|split].
    + split; [apply same_env_set_files|]. split; [done|].
      intros k Hk. simpl. by rewrite lookup_insert_ne.
    + simpl. by rewrite lookup_insert_eq.
    + intros _ f [= <-]. simpl. by rewrite lookup_insert_eq.
  - split; [apply files_frame_refl|]. split; [by rewrite Hl|]. intros _ f. by rewrite Hl.
Qed.

Lemma write_text_frame d b c fs r fs' :
  write_text d b c fs = (r, fs') -> files_frame (eq (d ++ [b])) fs fs'.
Proof.
  unfold write_text. destruct (write_check fs d b).
  - intros [= _ <-]. apply files_frame_refl.
  - intros [= _ <-]. split; [apply same_env_set_files|]. split; [done|].
    intros k Hk. simpl. by rewrite lookup_insert_ne.
Qed.

Lemma extract_icon_frame p n fs r fs' :
  _extract_icon p n fs = (r, fs') ->
  (∃ o, r = Ok o) ∧ files_frame (under (ICONS_DIR (env_home fs))) fs fs'.
Proof.
  intros H. destruct (extract_icon_spec _ _ _ _ _ H) as (Ho & He & Hd & Hl).
  split; [done|]. split; [done|]. split; [done|]. exact Hl.
Qed.

Lemma substring_0_length s n :
  (n <= String.length s)%nat -> String.length (String.substring 0 n s) = n.
Proof.
  revert n. induction s as [|c s IH]; intros [|n] Hn; simpl in *; try lia.
  f_equal. apply IH. lia.
Qed.

Lemma sanitize_name_length c :
  String.length (strip_first_suffix [".AppImage"; ".appimage"] c) = String.length c ∨
  String.length (strip_first_suffix [".AppImage"; ".appimage"] c) + 9 = String.length c.
Proof.
  cbn [strip_first_suffix].
  destruct (endswith c ".AppImage") eqn:E1;
    [right|destruct (endswith c ".appimage") eqn:E2; [right|by left]];
    [unfold endswith in E1; apply andb_prop in E1 as [H _]
    |unfold endswith in E2; apply andb_prop in E2 as [H _]];
    apply Nat.leb_le in H; unfold drop_suffix; simpl in *;
    rewrite substring_0_length; lia.
Qed.

(** The descriptor of a bundle is never the bundle itself: its name is
    the display name followed by [.desktop], which is longer or shorter
    than the bundle's name by a fixed amount. *)
Lemma bundle_not_descriptor home (path : path) :
  path ≠ _desktop_path home (_sanitize_name path).
Proof.
  intros Heq.
  assert (Hn : path_name path = _sanitize_name path +:+ ".desktop").
  { rewrite Heq at 1. unfold _desktop_path, APPLICATIONS_DIR.
    apply path_name_snoc. }
  unfold _sanitize_name in Hn. cbv zeta in Hn.
  pose proof (f_equal String.length Hn) as Hl.
  rewrite string_length_app in Hl. change (String.length ".desktop") with 8%nat in Hl.
  destruct (sanitize_name_length (path_name path)); lia.
Qed.

(** [integrate_appimage], whether it returns or raises, leaves the
    environment as it was, only adds the applications and icons
    directories and their ancestors, and changes no file other than the
    bundle, its descriptor and files inside the icons directory.  The
    bundle's content is kept unless the bundle lies inside the icons
    directory.  A bundle whose display name is [..] (one named
    [...AppImage]) is left out: the icon's destination is then
    [ICONS_DIR/..], the parent of the icons directory, and
    [shutil.copy2] writes the icon there, which the model's path join
    does not follow. *)
Theorem integrate_appimage_frame file_path fs r fs' :
  _sanitize_name (resolve (env_home fs) (env_cwd fs) file_path) ≠ ".." ->
  integrate_appimage file_path fs = (r, fs') ->
  let home := env_home fs in
  let path := resolve home (env_cwd fs) file_path in
  let dp := _desktop_path home (_sanitize_name path) in
  same_env fs fs' ∧
  fs_dirs fs ⊆ fs_dirs fs' ∧
  (∀ d, d ∈ fs_dirs fs' -> d ∈ fs_dirs fs ∨
        d `prefix_of` APPLICATIONS_DIR home ∨ d `prefix_of` ICONS_DIR home) ∧
  (∀ k, k ≠ path -> k ≠ dp -> ¬ under (ICONS_DIR home) k ->
        fs_files fs' !! k = fs_files fs !! k) ∧
  (¬ under (ICONS_DIR home) path ->
   option_map f_content (fs_files fs' !! path) =
   option_map f_content (fs_files fs !! path)).
Proof.
  intros _ Hrun home path dp.
  assert (Hpd : path ≠ dp) by apply bundle_not_descriptor.
  destruct (_ensure_dirs fs) as [r1 fs1] eqn:E.
  destruct (ensure_dirs_spec _ _ _ E) as ((Hf1 & He1 & Hs1 & Hn1) & _ & _).
  assert (Hh1 : env_home fs1 = home) by (destruct He1; done).
  (* the frame from [fs1] to [fs'] *)
  assert (Hfr : files_frame (fun k => k = path ∨ k = dp ∨ under (ICONS_DIR home) k)
                            fs1 fs' ∧
                (¬ under (ICONS_DIR home) path ->
                 option_map f_content (fs_files fs' !! path) =
                 option_map f_content (fs_files fs1 !! path))).
  { destruct r1 as [[]|e0];
      [|rewrite (integrate_ensure_fails _ _ _ _ E) in Hrun; injection Hrun as _ <-;
        split; [apply files_frame_refl|done]].
    destruct (exists_b fs1 path) eqn:Hx;
      [|rewrite (integrate_missing _ _ _ E Hx) in Hrun; injection Hrun as _ <-;
        split; [apply files_frame_refl|done]].
    rewrite (integrate_after_check _ _ _ E Hx) in Hrun. fold home path in Hrun.
    destruct (stat_mode_exists _ _ Hx) as [m Hm].
    unfold bind at 1 in Hrun. rewrite Hm in Hrun.
    unfold bind at 1 in Hrun.
    destruct (chmod path (Z.lor m S_IXALL) fs1) as [rc fs2] eqn:Hc.
    destruct (chmod_frame _ _ _ _ _ Hc) as (Hfc & Hcc & _).
    destruct rc as [[]|ec];
      [|injection Hrun as _ <-; split;
        [destruct Hfc as (? & ? & Hl); split; [done|]; split; [done|];
         intros k Hk; apply Hl; intros <-; apply Hk; by left|done]].
    unfold bind at 1 in Hrun.
    destruct (_extract_icon path _ fs2) as [ri fs3] eqn:Hi.
    destruct (extract_icon_frame _ _ _ _ _ Hi) as ([o ->] & Hfi).
    assert (Hh2 : env_home fs2 = home) by (destruct Hfc as ((? & _) & _); congruence).
    rewrite Hh2 in Hfi.
    unfold bind at 1 in Hrun.
    destruct (write_text _ _ _ fs3) as [rw fs4] eqn:Hw.
    pose proof (write_text_frame _ _ _ _ _ _ Hw) as Hfw.
    assert (Hfin : fs' = fs4) by (destruct rw; injection Hrun as _ <-; done).
    subst fs'.
    pose proof (files_frame_trans _ _ _ _ _ (files_frame_trans _ _ _ _ _ Hfc Hfi) Hfw)
      as (Hea & Hda & Hla).
    split.
    - split; [done|]. split; [done|]. intros k Hk. apply Hla.
      intros [[<-|Hu]|Hd]; apply Hk; [by left|by right; right|].
      right; left. rewrite <- Hd. reflexivity.
    - intros Hnu. destruct Hfi as (_ & _ & Hli), Hfw as (_ & _ & Hlw).
      rewrite Hlw, Hli; [done|done|].
      intros Hd. apply Hpd. rewrite <- Hd. reflexivity. }
  destruct Hfr as ((He & Hd & Hl) & Hc).
  split; [eauto using same_env_trans|].
  split; [rewrite Hd; done|].
  split; [rewrite Hd; intros d Hdi; destruct (Hn1 d Hdi) as [?|?]; auto|].
  split.
  - intros k H1 H2 H3. rewrite Hl, Hf1; [done|]. intros [?|[?|?]]; auto.
  - intros Hnu. rewrite Hc, Hf1; done.
Qed.

Lemma integrate_appimage_frame_witness :
  same_env fs_app (snd (integrate_appimage "/tmp/MyTestApp.AppImage" fs_app)) ∧
  option_map f_content
    (fs_files (snd (integrate_appimage "/tmp/MyTestApp.AppImage" fs_app))
       !! ["tmp"; "MyTestApp.AppImage"]) =
  option_map f_content (fs_files fs_app !! ["tmp"; "MyTestApp.AppImage"]).
Proof.
  assert (E : integrate_appimage "/tmp/MyTestApp.AppImage" fs_app =
              (fst (integrate_appimage "/tmp/MyTestApp.AppImage" fs_app),
               snd (integrate_appimage "/tmp/MyTestApp.AppImage" fs_app)))
    by (vm_compute; reflexivity).
  assert (Hn : _sanitize_name (resolve (env_home fs_app) (env_cwd fs_app)
                "/tmp/MyTestApp.AppImage") ≠ "..") by (vm_compute; discriminate).
  destruct (integrate_appimage_frame _ _ _ _ Hn E) as (H1 & _ & _ & _ & H5).
  split; [exact H1|]. apply H5.
  intros [rest Hr]. vm_compute in Hr. congruence.
Defined.

(** After a successful [integrate_appimage] on a regular file outside the
    icons directory, the file keeps its content and its mode gains the
    three execute bits ([mode | S_IXUSR | S_IXGRP | S_IXOTH]). *)
Theorem integrate_appimage_sets_exec file_path fs r fs' f :
  integrate_appimage file_path fs = (Ok r, fs') ->
  fs_files fs !! resolve (env_home fs) (env_cwd fs) file_path = Some f ->
  ¬ under (ICONS_DIR (env_home fs)) (resolve (env_home fs) (env_cwd fs) file_path) ->
  fs_files fs' !! resolve (env_home fs) (env_cwd fs) file_path =
  Some {| f_content := f_content f; f_mode := Z.lor (f_mode f) S_IXALL |}.
Proof.
  set (path := resolve (env_home fs) (env_cwd fs) file_path).
  intros Hrun Hf Hnu.
  assert (Hpd : path ≠ _desktop_path (env_home fs) (_sanitize_name path))
    by apply bundle_not_descriptor.
  destruct (_ensure_dirs fs) as [r1 fs1] eqn:E.
  destruct (ensure_dirs_spec _ _ _ E) as ((Hf1 & He1 & _ & _) & _ & _).
  destruct r1 as [[]|e0];
    [|rewrite (integrate_ensure_fails _ _ _ _ E) in Hrun; congruence].
  assert (Hf1p : fs_files fs1 !! path = Some f) by (rewrite Hf1; done).
  assert (Hx : exists_b fs1 path = true)
    by (unfold exists_b, is_file; rewrite Hf1p; apply orb_true_r).
  rewrite (integrate_after_check _ _ _ E Hx) in Hrun. fold path in Hrun.
  assert (Hm : stat_mode path fs1 = (Ok (f_mode f), fs1))
    by (unfold stat_mode; rewrite Hf1p; done).
  unfold bind at 1 in Hrun. rewrite Hm in Hrun.
  unfold bind at 1 in Hrun.
  destruct (chmod path (Z.lor (f_mode f) S_IXALL) fs1) as [rc fs2] eqn:Hc.
  destruct (chmod_frame _ _ _ _ _ Hc) as (Hfc & _ & Hset).
  destruct rc as [[]|ec]; [|congruence].
  pose proof (Hset eq_refl f Hf1p) as Hp2.
  unfold bind at 1 in Hrun.
  destruct (_extract_icon path _ fs2) as [ri fs3] eqn:Hi.
  destruct (extract_icon_frame _ _ _ _ _ Hi) as ([o ->] & (_ & _ & Hli)).
  assert (Hh2 : env_home fs2 = env_home fs)
    by (destruct Hfc as ((? & _) & _), He1 as (? & _); congruence).
  rewrite Hh2 in Hli.
  unfold bind at 1 in Hrun.
  destruct (write_text _ _ _ fs3) as [rw fs4] eqn:Hw.
  destruct (write_text_frame _ _ _ _ _ _ Hw) as (_ & _ & Hlw).
  destruct rw as [[]|ew]; [|congruence].
  unfold ret in Hrun. injection Hrun as _ <-.
  rewrite Hlw, Hli; [exact Hp2|exact Hnu|].
  intros Hd. apply Hpd. symmetry. exact Hd.
Qed.

Lemma integrate_appimage_sets_exec_witness :
  fs_files (snd (integrate_appimage "/tmp/MyTestApp.AppImage" fs_app))
    !! ["tmp"; "MyTestApp.AppImage"] =
  Some {| f_content := "#!/bin/sh"; f_mode := Z.lor 420 S_IXALL |}.
Proof.
  apply (integrate_appimage_sets_exec "/tmp/MyTestApp.AppImage" fs_app
           (match fst (integrate_appimage "/tmp/MyTestApp.AppImage" fs_app) with
            | Ok r => r
            | Raise _ => {| app_name := ""; exec_path := ""; desktop_path := "";
                            icon_path := None |} end)
           _ {| f_content := "#!/bin/sh"; f_mode := 420 |}).
  - vm_compute. reflexivity.
  - vm_compute. reflexivity.
  - intros [rest Hr]. vm_compute in Hr. congruence.
Defined.

(** What a successful [integrate_appimage] leaves behind. *)
Lemma integrate_ok_inv file_path fs r fs' :
  integrate_appimage file_path fs = (Ok r, fs') ->
  let home := env_home fs in
  let path := resolve home (env_cwd fs) file_path in
  let name := _sanitize_name path in
  let dp := _desktop_path home name in
  same_env fs fs' ∧ is_dir fs' (APPLICATIONS_DIR home) = true ∧ is_dir fs' dp = false ∧
  (∀ d, d ∈ fs_dirs fs' -> d ∈ fs_dirs fs ∨
        d `prefix_of` APPLICATIONS_DIR home ∨ d `prefix_of` ICONS_DIR home) ∧
  app_name r = name ∧ exec_path r = pstr path ∧ desktop_path r = pstr dp ∧
  option_map f_content (fs_files fs' !! dp) =
  Some (desktop_content name (pstr path)
          (match icon_path r with Some i => i | None => GENERIC_ICON end)).
Proof.
  intros Hrun home path name dp.
  destruct (_ensure_dirs fs) as [[[]|e0] fs1] eqn:E;
    [|rewrite (integrate_ensure_fails _ _ _ _ E) in Hrun; congruence].
  destruct (ensure_dirs_spec _ _ _ E) as ((_ & _ & _ & Hn1) & _ & Hok).
  destruct (Hok eq_refl) as [Ha _].
  destruct (exists_b fs1 path) eqn:Hx;
    [|rewrite (integrate_missing _ _ _ E Hx) in Hrun; congruence].
  destruct (decide (path ∈ fs_foreign fs)) as [Hf|Hf];
    [rewrite (integrate_chmod_fails _ _ _ E Hx Hf) in Hrun; congruence|].
  destruct (integrate_write _ _ _ E Hx Hf) as (o & fs3 & He3 & Hd3 & _ & Hw).
  rewrite Hw in Hrun. fold home path name in Hrun.
  destruct (write_check fs1 (APPLICATIONS_DIR home) (name +:+ ".desktop")) eqn:Hc;
    [congruence|].
  injection Hrun as <- <-.
  assert (Hdp : is_dir fs1 dp = false).
  { unfold write_check in Hc. cbv zeta in Hc.
    destruct (negb _); [congruence|].
    destruct (is_dir fs1 _) eqn:Hd; [congruence|]. reflexivity. }
  split; [by apply same_env_trans with fs3; [|apply same_env_set_files]|].
  split; [unfold is_dir in *; simpl; by rewrite Hd3|].
  split; [unfold is_dir in *; simpl; by rewrite Hd3|].
  split; [simpl; rewrite Hd3; exact Hn1|].
  split; [done|]. split; [done|]. split; [done|].
  simpl. rewrite lookup_insert_eq. simpl. by destruct o.
Qed.

(** Removing right after a successful [integrate_appimage] of the same
    path deletes the descriptor it wrote and does not report [false],
    provided the applications directory is writable.  (It can still raise
    while deleting an icon.) *)
Theorem integrate_then_remove file_path fs r fs1 r2 fs2 :
  integrate_appimage file_path fs = (Ok r, fs1) ->
  APPLICATIONS_DIR (env_home fs) ∉ fs_ro fs ->
  remove_appimage file_path fs1 = (r2, fs2) ->
  r2 ≠ Ok false ∧
  fs_files fs2 !! _desktop_path (env_home fs) (app_name r) = None.
Proof.
  intros Hi Hro Hr.
  destruct (integrate_ok_inv _ _ _ _ Hi)
    as (He & _ & Hdd & _ & Hname & _ & _ & Hcontent).
  rewrite Hname.
  set (dp := _desktop_path (env_home fs)
               (_sanitize_name (resolve (env_home fs) (env_cwd fs) file_path))) in *.
  destruct He as (Hh & Hc & Hr1 & _).
  unfold remove_appimage, bind at 1, get in Hr.
  cbn -[exists_b unlink remove_first_icon _desktop_path _sanitize_name resolve] in Hr.
  rewrite Hh, Hc in Hr. fold dp in Hr.
  assert (Hx : exists_b fs1 dp = true).
  { unfold exists_b, is_file. destruct (fs_files fs1 !! dp); [apply orb_true_r|done]. }
  rewrite Hx in Hr. cbv [negb] in Hr.
  assert (Hu : unlink dp fs1 = (Ok tt, set_files (delete dp (fs_files fs1)) fs1)).
  { unfold unlink. rewrite Hdd.
    assert (Hfile : is_file fs1 dp = true)
      by (unfold is_file; destruct (fs_files fs1 !! dp); done).
    rewrite Hfile. simpl.
    rewrite bool_decide_eq_false_2; [done|].
    unfold dp, _desktop_path. rewrite removelast_last, Hr1. exact Hro. }
  unfold bind at 1 in Hr. rewrite Hu in Hr.
  unfold bind at 1 in Hr.
  destruct (remove_first_icon _ _ _ _) as [r3 fs3] eqn:H3.
  destruct (remove_first_icon_spec _ _ _ _ _ _ H3) as (_ & _ & Hl3).
  assert (Hgone : fs_files fs3 !! dp = None)
    by (apply Hl3; simpl; apply lookup_delete_eq).
  destruct r3 as [[]|e3]; unfold ret in Hr; injection Hr as <- <-;
    (split; [congruence|exact Hgone]).
Qed.

Lemma integrate_then_remove_witness :
  fs_files (snd (remove_appimage "/tmp/MyTestApp.AppImage"
                   (snd (integrate_appimage "/tmp/MyTestApp.AppImage" fs_app))))
    !! _desktop_path home0 "MyTestApp" = None.
Proof.
  assert (E1 : integrate_appimage "/tmp/MyTestApp.AppImage" fs_app =
    (Ok {| app_name := "MyTestApp"; exec_path := "/tmp/MyTestApp.AppImage";
           desktop_path := "/home/u/.local/share/applications/MyTestApp.desktop";
           icon_path := None |},
     snd (integrate_appimage "/tmp/MyTestApp.AppImage" fs_app)))
    by (vm_compute; reflexivity).
  assert (E2 : remove_appimage "/tmp/MyTestApp.AppImage"
                 (snd (integrate_appimage "/tmp/MyTestApp.AppImage" fs_app)) =
    (fst (remove_appimage "/tmp/MyTestApp.AppImage"
            (snd (integrate_appimage "/tmp/MyTestApp.AppImage" fs_app))),
     snd (remove_appimage "/tmp/MyTestApp.AppImage"
            (snd (integrate_appimage "/tmp/MyTestApp.AppImage" fs_app)))))
    by (vm_compute; reflexivity).
  assert (Hro : APPLICATIONS_DIR (env_home fs_app) ∉ fs_ro fs_app)
    by (intros Hin;
        assert (Hb : bool_decide (APPLICATIONS_DIR (env_home fs_app) ∈ fs_ro fs_app) = true)
          by (apply bool_decide_eq_true_2; exact Hin);
        vm_compute in Hb; discriminate Hb).
  exact (proj2 (integrate_then_remove _ _ _ _ _ _ E1 Hro E2)).
Defined.

(* ------------------------------------------------------------------ *)
(** ** Listing what [integrate_appimage] wrote *)

Lemma string_app_nil_l a : "" +:+ a = a.
Proof. reflexivity. Qed.

Lemma string_app_cons c a b : String c a +:+ b = String c (a +:+ b).
Proof. reflexivity. Qed.

Lemma string_app_assoc a b c : (a +:+ b) +:+ c = a +:+ (b +:+ c).
Proof. induction a; rewrite ?string_app_nil_l, ?string_app_cons; congruence. Qed.

Lemma string_app_nil_r a : a +:+ "" = a.
Proof. induction a; rewrite ?string_app_nil_l, ?string_app_cons; congruence. Qed.

Lemma splitlines_acc_no_break a s cur :
  has_line_break a = false ->
  splitlines_acc (a +:+ s) cur = splitlines_acc s (cur +:+ a).
Proof.
  revert cur. induction a as [|c a IH]; intros cur Ha; simpl in *.
  - by rewrite string_app_nil_r.
  - apply orb_false_iff in Ha as [Hc Ha]. rewrite Hc, IH by done.
    by rewrite string_app_assoc.
Qed.

Lemma splitlines_acc_nl s cur : splitlines_acc (NL +:+ s) cur = cur :: splitlines_acc s "".
Proof. by destruct s. Qed.

Lemma splitlines_line a s :
  has_line_break a = false ->
  splitlines (a +:+ NL +:+ s) = a :: splitlines s.
Proof.
  intros Ha. unfold splitlines. rewrite splitlines_acc_no_break by done.
  by rewrite splitlines_acc_nl.
Qed.

Lemma has_line_break_app a b :
  has_line_break (a +:+ b) = has_line_break a || has_line_break b.
Proof. induction a; simpl; [done|]. by rewrite IHa, orb_assoc. Qed.

Lemma splitlines_desktop_content n e i :
  has_line_break n = false -> has_line_break e = false -> has_line_break i = false ->
  splitlines (desktop_content n e i) =
  ["[Desktop Entry]"; "Name=" +:+ n; "Exec=" +:+ e; "Icon=" +:+ i;
   "Type=Application"; "Categories=Utility;"; "Terminal=false";
   "StartupNotify=true"; "Comment=AppImage managed by KAppMan"; MARKER +:+ e].
Proof.
  intros Hn He Hi. unfold desktop_content.
  idtac.
  rewrite splitlines_line by done.
  rewrite <- (string_app_assoc "Name=" n), splitlines_line
    by (rewrite has_line_break_app; simpl; done).
  rewrite <- (string_app_assoc "Exec=" e), splitlines_line
    by (rewrite has_line_break_app; simpl; done).
  rewrite <- (string_app_assoc "Icon=" i), splitlines_line
    by (rewrite has_line_break_app; simpl; done).
  rewrite !splitlines_line by done.
  rewrite <- (string_app_assoc MARKER e).
  rewrite <- (string_app_nil_r NL), splitlines_line
    by (rewrite has_line_break_app; simpl; done).
  done.
Qed.

Lemma prefix_app_self a b : String.prefix a (a +:+ b) = true.
Proof.
  induction a as [|c a IH]; simpl; [by destruct b|].
  destruct (ascii_dec c c); [done|congruence].
Qed.

Lemma contains_app_r n a b : contains n b = true -> contains n (a +:+ b) = true.
Proof.
  induction a as [|c a IH]; simpl; [done|]. intros H. rewrite IH by done.
  apply orb_true_r.
Qed.

Lemma contains_of_prefix n hay : String.prefix n hay = true -> contains n hay = true.
Proof. destruct hay; simpl; intros ->; done. Qed.

Lemma contains_self n x : contains n (n +:+ x) = true.
Proof. apply contains_of_prefix, prefix_app_self. Qed.

Lemma contains_desktop_content n e i : contains MARKER (desktop_content n e i) = true.
Proof.
  unfold desktop_content.
  repeat (first [apply contains_self | apply contains_app_r]).
Qed.

Lemma after_marker_app e : after_marker (MARKER +:+ e) = e.
Proof.
  unfold after_marker. rewrite string_length_app.
  replace (String.length MARKER + String.length e - String.length MARKER)%nat
    with (String.length e) by lia.
  apply substring_app_r.
Qed.

Lemma find_source_desktop_content n e i :
  has_line_break n = false -> has_line_break e = false -> has_line_break i = false ->
  find_source (splitlines (desktop_content n e i)) = e.
Proof.
  intros Hn He Hi. rewrite splitlines_desktop_content by done.
  cbn [find_source].
  replace (startswith (MARKER +:+ e) MARKER) with true
    by (symmetry; apply prefix_app_self).
  change (after_marker (MARKER +:+ e) = e). apply after_marker_app.
Qed.

Lemma rfind_dot_from_app a b : ∀ i best,
  rfind_dot_from (a +:+ b) i best =
  rfind_dot_from b (i + String.length a) (rfind_dot_from a i best).
Proof.
  induction a as [|c a IH]; intros i best.
  - by rewrite string_app_nil_l, Nat.add_0_r.
  - rewrite string_app_cons. simpl. rewrite IH. f_equal. lia.
Qed.

Lemma stem_desktop n : n ≠ "" -> stem (n +:+ ".desktop") = n.
Proof.
  intros Hn.
  assert (Hs : suffix (n +:+ ".desktop") = ".desktop").
  { unfold suffix. rewrite rfind_dot_from_app. simpl.
    rewrite string_length_app.
    assert (0 < String.length n)%nat by (destruct n; simpl; [done|lia]).
    replace ((0 <? String.length n) &&
             (String.length n <? String.length n + String.length ".desktop" - 1))%nat
      with true by (symmetry; apply andb_true_intro; split; apply Nat.ltb_lt; simpl; lia).
    replace (String.length n + String.length ".desktop" - String.length n)%nat
      with (String.length ".desktop") by lia.
    apply substring_app_r. }
  unfold stem. rewrite Hs, string_length_app.
  replace (String.length n + String.length ".desktop" - String.length ".desktop")%nat
    with (String.length n) by lia.
  apply substring_app_l.
Qed.

Lemma desktop_path_is_child home n :
  is_desktop_child (APPLICATIONS_DIR home) (_desktop_path home n) = true.
Proof.
  unfold is_desktop_child, child_name, _desktop_path.
  rewrite bool_decide_eq_true_2 by apply take_app_length.
  rewrite drop_app_length. apply endswith_app.
Qed.

Lemma created_dir_not_child home d :
  d `prefix_of` APPLICATIONS_DIR home ∨ d `prefix_of` ICONS_DIR home ->
  is_desktop_child (APPLICATIONS_DIR home) d = false.
Proof.
  intros Hd. unfold is_desktop_child, child_name.
  case_bool_decide as Ht; [|done].
  destruct (drop _ d) as [|b [|]] eqn:Hdr; [done| |done].
  exfalso.
  assert (Hlen : length d = S (length (APPLICATIONS_DIR home))).
  { rewrite <- (take_drop (length (APPLICATIONS_DIR home)) d), length_app, Hdr, Ht.
    simpl. lia. }
  assert (Hp : APPLICATIONS_DIR home `prefix_of` d).
  { rewrite <- Ht. apply prefix_take. }
  destruct Hd as [Hd|Hd].
  - apply prefix_length in Hd. lia.
  - assert (Hai : APPLICATIONS_DIR home `prefix_of` ICONS_DIR home) by (etrans; eauto).
    unfold APPLICATIONS_DIR, ICONS_DIR in Hai. apply prefix_app_inv in Hai.
    apply prefix_cons_inv_2, prefix_cons_inv_2, prefix_cons_inv_1 in Hai. done.
Qed.

Lemma read_entry_desktop_content dp n e i f :
  f_content f = desktop_content n e i ->
  path_name dp = n +:+ ".desktop" -> n ≠ "" ->
  has_line_break n = false -> has_line_break e = false -> has_line_break i = false ->
  read_entry (dp, f) =
  Some {| entry_app_name := n; entry_exec_path := e; entry_desktop_path := pstr dp |}.
Proof.
  intros Hf Hp Hn Hbn Hbe Hbi. unfold read_entry. simpl.
  rewrite Hf, contains_desktop_content, find_source_desktop_content by done.
  simpl. by rewrite Hp, stem_desktop.
Qed.

Lemma is_ascii_app s t : is_ascii (s +:+ t) = is_ascii s && is_ascii t.
Proof.
  induction s as [|c s IH]; [by rewrite string_app_nil_l|].
  rewrite string_app_cons. simpl. rewrite IH. apply andb_assoc.
Qed.

Lemma desktop_content_ascii n e i :
  is_ascii n = true -> is_ascii e = true -> is_ascii i = true ->
  is_ascii (desktop_content n e i) = true.
Proof.
  intros Hn He Hi. unfold desktop_content.
  rewrite !is_ascii_app, Hn, He, Hi. reflexivity.
Qed.

(** The descriptor [integrate_appimage] writes reads back as what it
    returned: after a successful call, the file at the returned descriptor
    path is one of the files [list_integrated] globs, its content is ASCII,
    and the per-file parsing of [list_integrated] turns it into an entry
    with the returned name, path and descriptor path.  This needs a
    non-empty display name (the stem of [.desktop] is [.desktop]), ASCII
    text without line breaks for the name, the path and the icon value
    (a line break would split the descriptor's lines). *)
Theorem integrate_descriptor_parses file_path fs r fs' :
  integrate_appimage file_path fs = (Ok r, fs') ->
  app_name r ≠ "" ->
  is_ascii (app_name r) = true ->
  is_ascii (exec_path r) = true ->
  is_ascii (match icon_path r with Some i => i | None => GENERIC_ICON end) = true ->
  has_line_break (app_name r) = false ->
  has_line_break (exec_path r) = false ->
  has_line_break (match icon_path r with Some i => i | None => GENERIC_ICON end) = false ->
  ∃ dp f, fs_files fs' !! dp = Some f ∧ desktop_path r = pstr dp ∧
          (dp, f) ∈ desktop_files fs' ∧
          is_ascii (f_content f) = true ∧
          read_entry (dp, f) =
          Some {| entry_app_name := app_name r; entry_exec_path := exec_path r;
                  entry_desktop_path := desktop_path r |}.
Proof.
  intros Hi Hn Han Hae Hai Hbn Hbe Hbi.
  destruct (integrate_ok_inv _ _ _ _ Hi)
    as ((Hh & _) & _ & _ & _ & Hname & Hexec & Hdp & Hc).
  set (dp := _desktop_path (env_home fs)
               (_sanitize_name (resolve (env_home fs) (env_cwd fs) file_path))) in *.
  destruct (fs_files fs' !! dp) as [f|] eqn:Hf; [|done].
  simpl in Hc. injection Hc as Hc.
  exists dp, f. split; [done|]. split; [done|]. split.
  { unfold desktop_files. rewrite Hh, elem_of_fold_insert_sorted, list_elem_of_filter.
    split; [simpl; unfold dp; by rewrite desktop_path_is_child|].
    by apply elem_of_map_to_list. }
  rewrite <- Hname, <- Hexec in Hc. split.
  { rewrite Hc. by apply desktop_content_ascii. }
  rewrite Hdp. eapply read_entry_desktop_content; [exact Hc| |done..].
  unfold dp, _desktop_path. by rewrite path_name_snoc, Hname.
Qed.

Lemma integrate_descriptor_parses_witness :
  ∃ dp f, fs_files (snd (integrate_appimage "/tmp/MyTestApp.AppImage" fs_app)) !! dp = Some f ∧
          "/home/u/.local/share/applications/MyTestApp.desktop" = pstr dp ∧
          (dp, f) ∈ desktop_files (snd (integrate_appimage "/tmp/MyTestApp.AppImage" fs_app)) ∧
          is_ascii (f_content f) = true ∧
          read_entry (dp, f) =
          Some {| entry_app_name := "MyTestApp"; entry_exec_path := "/tmp/MyTestApp.AppImage";
                  entry_desktop_path := "/home/u/.local/share/applications/MyTestApp.desktop" |}.
Proof.
  assert (E1 : integrate_appimage "/tmp/MyTestApp.AppImage" fs_app =
    (Ok {| app_name := "MyTestApp"; exec_path := "/tmp/MyTestApp.AppImage";
           desktop_path := "/home/u/.local/share/applications/MyTestApp.desktop";
           icon_path := None |},
     snd (integrate_appimage "/tmp/MyTestApp.AppImage" fs_app)))
    by (vm_compute; reflexivity).
  refine (integrate_descriptor_parses _ _ _ _ E1 _ _ _ _ _ _ _);
    [discriminate | vm_compute; reflexivity..].
Defined.

(* ------------------------------------------------------------------ *)
(** ** The icon names of [_extract_icon] and [remove_appimage] *)

Lemma least_fold_in (l : list (path * string)) : ∀ acc x,
  fold_left (fun acc x =>
               match acc with
               | None => Some x
               | Some y => if String.ltb (pstr x.1) (pstr y.1) then Some x else Some y
               end) l acc = Some x -> acc = Some x ∨ x ∈ l.
Proof.
  induction l as [|z l IH]; intros acc x H; simpl in H; [by left|].
  apply IH in H as [H|H]; [|right; by apply elem_of_cons; right].
  destruct acc as [y|]; [|injection H as ->; right; apply elem_of_cons; by left].
  destruct (String.ltb _ _); injection H as ->;
    [right; apply elem_of_cons; by left|by left].
Qed.

Lemma least_in l x : least l = Some x -> x ∈ l.
Proof. intros H. apply least_fold_in in H as [H|H]; done. Qed.

Lemma first_candidate_matches pats tree c :
  first_candidate pats tree = Some c ->
  c ∈ tree ∧ ∃ pat, pat ∈ pats ∧ matches pat (path_name c.1) = true.
Proof.
  induction pats as [|pat pats IH]; cbn [first_candidate]; [done|].
  destruct (least _) as [c'|] eqn:Hl.
  - intros [= <-]. apply least_in, list_elem_of_filter in Hl as [Hm Hin].
    split; [done|]. exists pat. split; [apply elem_of_cons; by left|]. by destruct (matches _ _).
  - intros H. destruct (IH H) as (Hin & pat' & Hp & Hm).
    split; [done|]. exists pat'. split; [apply elem_of_cons; by right|done].
Qed.

Lemma substring_split k s :
  (k <= String.length s)%nat ->
  String.substring 0 k s +:+ String.substring k (String.length s - k) s = s.
Proof.
  revert k. induction s as [|c s IH]; intros [|k] Hk; simpl in *; try lia.
  - reflexivity.
  - rewrite string_app_nil_l. f_equal. apply substring_whole.
  - rewrite string_app_cons. f_equal. apply IH. lia.
Qed.

Lemma endswith_split s suf :
  endswith s suf = true -> ∃ base, s = base +:+ suf.
Proof.
  unfold endswith. intros H. apply andb_prop in H as [Hle Heq].
  apply Nat.leb_le in Hle. apply String.eqb_eq in Heq.
  exists (String.substring 0 (String.length s - String.length suf) s).
  pose proof (substring_split (String.length s - String.length suf) s ltac:(lia)) as Hs.
  replace (String.length s - (String.length s - String.length suf))%nat
    with (String.length suf) in Hs by lia.
  rewrite Heq in Hs. symmetry. exact Hs.
Qed.

Lemma suffix_app_ext base ext :
  (∀ i best, rfind_dot_from ext i best = Some i) -> (2 <= String.length ext)%nat ->
  suffix (base +:+ ext) = ext ∨ suffix (base +:+ ext) = "".
Proof.
  intros Hr Hl. unfold suffix. rewrite rfind_dot_from_app, Hr. simpl.
  rewrite string_length_app.
  destruct (0 <? String.length base)%nat eqn:H0; [|by right].
  replace (String.length base <? String.length base + String.length ext - 1)%nat
    with true by (symmetry; apply Nat.ltb_lt; lia).
  left. simpl.
  replace (String.length base + String.length ext - String.length base)%nat
    with (String.length ext) by lia.
  apply substring_app_r.
Qed.

Lemma icon_pattern_suffix name pat :
  pat ∈ icon_patterns -> matches pat name = true ->
  suffix name ∈ [".png"; ".svg"; ""].
Proof.
  intros Hp. apply list_elem_of_In in Hp. unfold icon_patterns in Hp. simpl in Hp.
  destruct Hp as [<-|[<-|[<-|[]]]]; simpl; intros Hm.
  - apply endswith_split in Hm as [base ->].
    destruct (suffix_app_ext base ".png") as [->| ->];
      [done|simpl; lia| |]; rewrite !elem_of_cons; tauto.
  - apply endswith_split in Hm as [base ->].
    destruct (suffix_app_ext base ".svg") as [->| ->];
      [done|simpl; lia| |]; rewrite !elem_of_cons; tauto.
  - apply String.eqb_eq in Hm as ->. rewrite !elem_of_cons. vm_compute. tauto.
Qed.

Lemma extract_icon_names p n fs i fs' :
  _extract_icon p n fs = (Ok (Some i), fs') ->
  ∃ suf, suf ∈ [".png"; ".svg"; ""] ∧
         i = path_join (ICONS_DIR (env_home fs)) (n +:+ suf).
Proof.
  unfold _extract_icon, bind, get. cbn -[first_candidate copy2 path_join suffix].
  destruct (env_which_unsquashfs fs); cbn -[first_candidate copy2 path_join suffix];
    [|unfold ret; congruence].
  destruct (env_unsquash fs p) as [tree|]; [|unfold ret; congruence].
  destruct (first_candidate icon_patterns tree) as [[src data]|] eqn:Hc;
    [|unfold ret; congruence].
  apply first_candidate_matches in Hc as (_ & pat & Hp & Hm).
  unfold catch_all, bind.
  destruct (copy2 _ _ _ fs) as [[[]|e] fs2];
    [unfold ret; intros [= <- _] | congruence].
  eexists. split; [|reflexivity]. by eapply icon_pattern_suffix.
Qed.

(** The icon [integrate_appimage] reports is
    [ICONS_DIR / (<display name> + suf)] with [suf] one of [.png], [.svg]
    and the empty string: one of the names [remove_appimage] tries. *)
Theorem integrate_icon_removable file_path fs r fs' s :
  integrate_appimage file_path fs = (Ok r, fs') -> icon_path r = Some s ->
  ∃ suf, suf ∈ [".png"; ".svg"; ""] ∧
         s = pstr (path_join (ICONS_DIR (env_home fs)) (app_name r +:+ suf)).
Proof.
  intros Hi Hs.
  destruct (_ensure_dirs fs) as [[[]|e0] fs1] eqn:E;
    [|rewrite (integrate_ensure_fails _ _ _ _ E) in Hi; congruence].
  destruct (ensure_dirs_spec _ _ _ E) as ((_ & He1 & _) & _).
  destruct (exists_b fs1 (resolve (env_home fs) (env_cwd fs) file_path)) eqn:Hx;
    [|rewrite (integrate_missing _ _ _ E Hx) in Hi; congruence].
  rewrite (integrate_after_check _ _ _ E Hx) in Hi.
  destruct (stat_mode_exists _ _ Hx) as [m Hm].
  unfold bind at 1 in Hi. rewrite Hm in Hi. unfold bind at 1 in Hi.
  destruct (chmod _ _ fs1) as [[[]|e2] fs2] eqn:Hch; [|congruence].
  destruct (chmod_spec _ _ _ _ _ Hch) as (He2 & _).
  unfold bind at 1 in Hi.
  destruct (_extract_icon _ _ fs2) as [[o|e3] fs3] eqn:Hex; [|congruence].
  unfold bind at 1 in Hi.
  destruct (write_text _ _ _ fs3) as [[[]|e4] fs4]; [|congruence].
  unfold ret in Hi. injection Hi as <- _. simpl in Hs |- *.
  destruct o as [i|]; [|congruence]. injection Hs as <-.
  apply extract_icon_names in Hex as (suf & Hsuf & ->).
  exists suf. split; [done|].
  destruct He1 as (Hh1 & _), He2 as (Hh2 & _). by rewrite Hh2, Hh1.
Qed.

Lemma integrate_icon_removable_witness :
  ∃ suf, suf ∈ [".png"; ".svg"; ""] ∧
         "/home/u/.local/share/icons/kappman/MyTestApp.png" =
         pstr (path_join (ICONS_DIR home0) ("MyTestApp" +:+ suf)).
Proof.
  assert (E1 : integrate_appimage "/tmp/MyTestApp.AppImage" fs_app_icon =
    (Ok {| app_name := "MyTestApp"; exec_path := "/tmp/MyTestApp.AppImage";
           desktop_path := "/home/u/.local/share/applications/MyTestApp.desktop";
           icon_path := Some "/home/u/.local/share/icons/kappman/MyTestApp.png" |},
     snd (integrate_appimage "/tmp/MyTestApp.AppImage" fs_app_icon)))
    by (vm_compute; reflexivity).
  exact (integrate_icon_removable _ _ _ _ _ E1 eq_refl).
Defined.

(** The entry of a listed integration names a descriptor holding the marker. *)
Lemma list_integrated_marker_witness :
  ∃ k f, fs_files (snd (integrate_appimage "/tmp/MyTestApp.AppImage" fs_app)) !! k = Some f ∧
         "/home/u/.local/share/applications/MyTestApp.desktop" = pstr k ∧
         contains MARKER (f_content f) = true.
Proof.
  refine (list_integrated_marker
            (snd (integrate_appimage "/tmp/MyTestApp.AppImage" fs_app))
            [{| entry_app_name := "MyTestApp"; entry_exec_path := "/tmp/MyTestApp.AppImage";
                entry_desktop_path := "/home/u/.local/share/applications/MyTestApp.desktop" |}]
            (snd (integrate_appimage "/tmp/MyTestApp.AppImage" fs_app))
            {| entry_app_name := "MyTestApp"; entry_exec_path := "/tmp/MyTestApp.AppImage";
               entry_desktop_path := "/home/u/.local/share/applications/MyTestApp.desktop" |}
            _ _ _).
  - intros k f Hk.
    refine (map_forallb_lookup (λ f, is_ascii (f_content f)) _ k f _ Hk).
    vm_compute. reflexivity.
  - vm_compute. reflexivity.
  - apply elem_of_cons. by left.
Defined.

(* ------------------------------------------------------------------ *)
(** ** The order of [list_integrated] *)









(* ================================================================== *)
(** * C9: stopping the watcher *)

Lemma run_app l1 l2 s :
  run (l1 ++ l2) s =
  match run l1 s with
  | None => None
  | Some (s1, a) =>
      match run l2 s1 with None => None | Some (s2, b) => Some (s2, a ++ b) end
  end.
Proof.
  revert s. induction l1 as [|t l1 IH]; intros s; simpl.
  - by destruct (run l2 s) as [[]|].
  - destruct (step t s) as [[s1 a]|]; [|done].
    rewrite IH. destruct (run l1 s1) as [[s2 b]|]; [|done].
    destruct (run l2 s2) as [[s3 c]|]; [|done]. by rewrite app_assoc.
Qed.

Lemma run_observer n s :
  alive (obj s) = true -> run (repeat ObserverThread n) s = Some (s, repeat Dispatched n).
Proof.
  intros Ha. induction n as [|n IH]; simpl; [done|]. rewrite Ha, IH. done.
Qed.

(** C9 (code bug).  The GUI starts [WatcherThread] and, before that thread
    has reached [start()], the user turns the watcher off: [stop()] sets
    the event, finds [_observer] still [None] and returns.  [start()] then
    clears the event and starts an observer, which dispatches every later
    event ([n] of them here) although [stop()] has returned; the thread
    stays blocked in [wait()] on the cleared event. *)
Theorem stop_before_start_keeps_dispatching n :
  let s' := {| obj := {| stop_event := false; observer := Some true |};
               run_at := R_wait; stop_at := S_returned |} in
  run ([StopThread; StopThread] ++ repeat RunThread 5 ++ repeat ObserverThread n) sys_init
    = Some (s', StopReturned :: repeat Dispatched n) ∧
  step RunThread s' = None ∧ step StopThread s' = None.
Proof.
  intros s'. split; [|split; reflexivity].
  rewrite !run_app. simpl. rewrite run_observer by reflexivity. reflexivity.
Qed.
